(** * simple-got: a GPT-2 style transformer and its training batcher

    A shallow embedding of [src/gpt/model.py].  Tensors of floats are
    modelled over the real numbers (exact arithmetic), integer tensors and
    Python integers over [Z], Python exceptions by the [result] type. *)

From Stdlib Require Import Reals ZArith List String Bool Lia Lra.
From stdpp Require Import gmap strings.
Import ListNotations.

(** ** Python exceptions *)

Inductive exn : Type :=
| AssertionError
| IndexError
| KeyError
| RuntimeError
| ValueError
| ZeroDivisionError.

Inductive result (A : Type) : Type :=
| Ok (a : A)
| Raise (e : exn).

Arguments Ok {A} a.
Arguments Raise {A} e.

Definition bind {A B : Type} (r : result A) (k : A -> result B) : result B :=
  match r with
  | Ok a => k a
  | Raise e => Raise e
  end.

Notation "'let*' x ':=' r 'in' k" := (bind r (fun x => k))
  (at level 10, x name, r at level 100, k at level 200).

Fixpoint mapM {A B : Type} (f : A -> result B) (l : list A) : result (list B) :=
  match l with
  | [] => Ok []
  | a :: l' => let* b := f a in let* bs := mapM f l' in Ok (b :: bs)
  end.

(** ** Corpus batcher: [DataLoaderLite] *)

Module Batcher.

Local Open Scope Z_scope.

(** Python's [l[start:stop]] for integer bounds: a negative bound counts
    from the end, and both bounds are clamped to the list. *)
Definition norm_index (len i : Z) : Z :=
  if i <? 0 then Z.max (i + len) 0 else Z.min i len.

Definition py_slice {A : Type} (l : list A) (start stop : Z) : list A :=
  let len := Z.of_nat (length l) in
  let a := norm_index len start in
  let b := norm_index len stop in
  firstn (Z.to_nat (b - a)) (skipn (Z.to_nat a) l).

(** [t.view(B, T)] on a one-dimensional tensor: the element count has to be
    [B*T]; row [b] holds the elements [b*T .. b*T+T-1]. *)
Definition reshape {A : Type} (B T : nat) (l : list A) : list (list A) :=
  map (fun b => firstn T (skipn (b * T) l)) (seq 0 B).

Definition view2 {A : Type} (B T : nat) (l : list A) : result (list (list A)) :=
  if Nat.eqb (length l) (B * T) then Ok (reshape B T l) else Raise RuntimeError.

Record DataLoaderLite : Type := mkLoader {
  B : nat;
  T : nat;
  tokens : list Z;
  current_position : Z
}.

(** [__init__]: the token list comes from the tokenizer run on the corpus
    file, both external; the cursor starts at zero. *)
Definition init (B T : nat) (tokens : list Z) : DataLoaderLite :=
  mkLoader B T tokens 0.

Definition BT (d : DataLoaderLite) : Z := Z.of_nat (B d) * Z.of_nat (T d).

Definition next_batch (d : DataLoaderLite)
  : result (list (list Z) * list (list Z) * DataLoaderLite) :=
  let buf := py_slice (tokens d) (current_position d) (current_position d + BT d + 1) in
  let* x := view2 (B d) (T d) (py_slice buf 0 (-1)) in
  let* y := view2 (B d) (T d) (py_slice buf 1 (Z.of_nat (length buf))) in
  let pos := current_position d + BT d in
  let pos := if pos + (BT d + 1) >? Z.of_nat (length (tokens d)) then 0 else pos in
  Ok (x, y, mkLoader (B d) (T d) (tokens d) pos).

(** The cursor invariant between calls. *)
Definition cursor_ok (d : DataLoaderLite) : Prop :=
  0 <= current_position d /\
  current_position d + BT d + 1 <= Z.of_nat (length (tokens d)).

(** [n] successive calls, threading the loader state. *)
Fixpoint run (n : nat) (d : DataLoaderLite) : result DataLoaderLite :=
  match n with
  | O => Ok d
  | S n' =>
      match next_batch d with
      | Ok (_, _, d') => run n' d'
      | Raise e => Raise e
      end
  end.

(** The stream [0, 1, ..., n-1]. *)
Definition range (n : nat) : list Z := map Z.of_nat (seq 0 n).

End Batcher.

(** ** Tensors of reals *)

Abbreviation vec := (list R) (only parsing).
Abbreviation mat := (list (list R)) (only parsing).

Fixpoint map2 {A B C : Type} (f : A -> B -> C) (l : list A) (l' : list B) : list C :=
  match l, l' with
  | a :: l, b :: l' => f a b :: map2 f l l'
  | _, _ => []
  end.

Section RealTensors.
Local Open Scope R_scope.

Definition rsum (l : list R) : R := fold_right Rplus 0 l.

Definition dot (u v : vec) : R := rsum (map2 Rmult u v).

Definition vadd (u v : vec) : vec := map2 Rplus u v.

Definition vmul (u v : vec) : vec := map2 Rmult u v.

(** Column [d] of a matrix given by its rows. *)
Definition column (d : nat) (m : mat) : vec := map (fun r => nth d r 0) m.

(** [a @ b] for [a] of shape n x k and [b] of shape k x ncols. *)
Definition matmul (a b : mat) (ncols : nat) : mat :=
  map (fun row => map (fun d => dot row (column d b)) (seq 0 ncols)) a.

(** The [i]-th block of width [n] of a vector: [v[i*n : (i+1)*n]]. *)
Definition chunk (n i : nat) (v : vec) : vec := firstn n (skipn (i * n) v).

(** [torch.tril(torch.ones(L, L))]. *)
Definition tril_ones (L : nat) : mat :=
  map (fun i => map (fun j => if (j <=? i)%nat then 1 else 0) (seq 0 L)) (seq 0 L).

(** Attention scores after masking: a real or minus infinity. *)
Inductive score : Type :=
| Fin (r : R)
| NegInf.

(** [att.masked_fill(mask == 0, float('-inf'))]. *)
Definition masked_fill (mask att : mat) : list (list score) :=
  map2 (map2 (fun b a => if Req_dec_T b 0 then NegInf else Fin a)) mask att.

Definition smax (x y : score) : score :=
  match x, y with
  | Fin a, Fin b => Fin (Rmax a b)
  | NegInf, _ => y
  | _, NegInf => x
  end.

Definition row_max (row : list score) : score := fold_right smax NegInf row.

(** [exp(x - m)], with [exp(-inf) = 0]. *)
Definition exp_shift (m x : score) : R :=
  match x, m with
  | NegInf, _ => 0
  | Fin a, Fin b => exp (a - b)
  | Fin a, NegInf => exp a
  end.

(** [F.softmax] along the last dimension, computed as the library does:
    the row maximum is subtracted before exponentiation.  A row of
    minus infinities only (NaN in floating point) does not occur under
    the causal mask. *)
Definition softmax (row : list score) : vec :=
  let m := row_max row in
  let e := map (exp_shift m) row in
  let s := rsum e in
  map (fun a => a / s) e.

(** [nn.GELU(approximate="tanh")]. *)
Definition gelu_tanh (x : R) : R :=
  0.5 * x * (1 + tanh (sqrt (2 / PI) * (x + 0.044715 * x ^ 3))).

(** The result of a reduction that may be undefined. *)
Inductive scalar : Type :=
| Val (r : R)
| NaN.

(** The cross-entropy of one item: minus the logarithm of the softmax
    probability that the scores [x] give to the class [t]. *)
Definition token_loss (x : vec) (t : Z) : R :=
  - ln (exp (nth (Z.to_nat t) x 0) / rsum (map exp x)).

(** One term of [F.cross_entropy]: [None] for a target equal to the
    default [ignore_index] -100, an error for a class out of range. *)
Definition nll (x : vec) (t : Z) : result (option R) :=
  if (t =? -100)%Z then Ok None
  else if ((0 <=? t)%Z && (t <? Z.of_nat (length x))%Z)%bool
       then Ok (Some (token_loss x t))
       else Raise IndexError.

Fixpoint keep {A : Type} (l : list (option A)) : list A :=
  match l with
  | [] => []
  | Some a :: l => a :: keep l
  | None :: l => keep l
  end.

(** [F.cross_entropy(input, target)] with the default mean reduction:
    [input] has one row of class scores per item; the mean is taken over
    the items that are not ignored, and the mean of no item is NaN. *)
Definition cross_entropy (input : mat) (target : list Z) : result scalar :=
  if negb (Nat.eqb (length input) (length target)) then Raise ValueError
  else
    let* terms := mapM (fun p => nll (fst p) (snd p)) (combine input target) in
    match keep terms with
    | [] => Ok NaN
    | kept => Ok (Val (rsum kept / INR (length kept)))
    end.
End RealTensors.

(** Row [i] of a causally masked score matrix, written by index: entry
    [j] survives when [j <= i]; [j0] is the index of the first entry. *)
Fixpoint causal_from (j0 i : nat) (s : vec) : list score :=
  match s with
  | [] => []
  | a :: s' => (if (j0 <=? i)%nat then Fin a else NegInf) :: causal_from (S j0) i s'
  end.

(** [map] with the index of each element, counted from [i]. *)
Fixpoint rows_from {A B : Type} (f : nat -> A -> B) (i : nat) (l : list A) : list B :=
  match l with
  | [] => []
  | a :: l' => f i a :: rows_from f (S i) l'
  end.

Section RowWise.
Local Open Scope R_scope.

(** The attention weights written row by row: row [i] is the softmax of
    the scores of query [i], masked after column [i]. *)
Definition weight_row (hs : nat) (kh : mat) (i : nat) (q : vec) : vec :=
  softmax (causal_from 0 i (map (fun kj => dot q kj * (1 / sqrt (INR hs))) kh)).

End RowWise.

(** A two-dimensional tensor of integers with its [size()]. *)
Record LongTensor : Type := mkLong {
  size0 : nat;
  size1 : nat;
  rows : list (list Z)
}.



(** [torch.empty] and the layers built on it refuse a negative size. *)
Definition check_size (n : Z) : result unit :=
  if (n <? 0)%Z then Raise RuntimeError else Ok tt.

Module ModelArgs.
Record t : Type := mk {
  max_seq_len : Z;
  vocab_size : Z;
  n_layers : Z;
  n_heads : Z;
  n_embd : Z;
  multiple_of : Z;
  ffn_dim_multiplier : option R
}.
End ModelArgs.

Module Linear.
Record t : Type := mk { weight : mat; bias : option vec }.

(** [y = x W^T + b] on the last dimension. *)
Definition forward (l : t) (x : vec) : vec :=
  let y := map (fun w => dot x w) (weight l) in
  match bias l with
  | Some b => vadd y b
  | None => y
  end.

Definition shaped (out_features in_features : nat) (l : t) : Prop :=
  length (weight l) = out_features /\
  Forall (fun w => length w = in_features) (weight l) /\
  match bias l with
  | Some b => length b = out_features
  | None => True
  end.
End Linear.

Module LayerNorm.
Local Open Scope R_scope.
Record t : Type := mk { weight : vec; bias : vec }.

Definition eps : R := 1 / 100000.

Definition mean (x : vec) : R := rsum x / INR (length x).

Definition var (x : vec) : R :=
  rsum (map (fun a => (a - mean x) ^ 2) x) / INR (length x).

Definition forward (l : t) (x : vec) : vec :=
  vadd (vmul (map (fun a => (a - mean x) / sqrt (var x + eps)) x) (weight l))
       (bias l).

Definition shaped (n : nat) (l : t) : Prop :=
  length (weight l) = n /\ length (bias l) = n.
End LayerNorm.

Module Embedding.
(** A lookup in the table; an index outside of it is an [IndexError]. *)
Definition forward (w : mat) (i : Z) : result vec :=
  if ((0 <=? i)%Z && (i <? Z.of_nat (length w))%Z)%bool
  then Ok (nth (Z.to_nat i) w [])
  else Raise IndexError.

Definition shaped (num dim : nat) (w : mat) : Prop :=
  length w = num /\ Forall (fun r => length r = dim) w.
End Embedding.

Module CausalSelfAttention.
Local Open Scope R_scope.

Record t : Type := mk {
  max_seq_len : Z;
  n_embd : Z;
  n_heads : Z;
  head_dim : Z;
  c_attn : Linear.t;
  c_proj : Linear.t;
  bias : mat        (* the causal mask, a buffer and not a parameter *)
}.

(** Lines 39 to 44: the head dimension and the two assertions on it.
    Python's [//] and [%] are [Z.div] and [Z.modulo]; both raise on a
    zero divisor. *)
Definition divisibility_check (config : ModelArgs.t) : result Z :=
  if (ModelArgs.n_heads config =? 0)%Z then Raise ZeroDivisionError
  else
    let head_dim := (ModelArgs.n_embd config / ModelArgs.n_heads config)%Z in
    if negb (head_dim * ModelArgs.n_heads config =? ModelArgs.n_embd config)%Z
    then Raise AssertionError
    else if negb (ModelArgs.n_embd config mod ModelArgs.n_heads config =? 0)%Z
    then Raise AssertionError
    else Ok head_dim.

(** [__init__]; [w_attn] and [w_proj] stand for the two linear layers as
    drawn by the random initialiser.  The standard deviation
    [alpha * (1 / n_embd) ** 0.5] divides by [n_embd]. *)
Definition init (config : ModelArgs.t) (w_attn w_proj : Linear.t) : result t :=
  let* head_dim := divisibility_check config in
  let* _ := check_size (ModelArgs.n_embd config) in
  let* _ := check_size (ModelArgs.max_seq_len config) in
  if (ModelArgs.n_embd config =? 0)%Z then Raise ZeroDivisionError
  else
    Ok (mk (ModelArgs.max_seq_len config) (ModelArgs.n_embd config)
           (ModelArgs.n_heads config) head_dim w_attn w_proj
           (tril_ones (Z.to_nat (ModelArgs.max_seq_len config)))).

(** Lines 73 to 75 for one head of one sequence: [qh] and [kh] hold one
    row of width [hs] per position; the result is the T x T matrix of
    attention weights. *)
Definition weights (mask : mat) (hs : nat) (qh kh : mat) : mat :=
  let T := length qh in
  let att := map (fun qi => map (fun kj => dot qi kj * (1 / sqrt (INR hs))) kh) qh in
  let att := masked_fill (map (firstn T) (firstn T mask)) att in
  let att := map softmax att in
  att.

(** [y.transpose(1, 2).contiguous().view(B, T, C)]: at every position the
    outputs of the heads side by side. *)
Definition merge_heads (T : nat) (ys : list mat) : mat :=
  map (fun t => concat (map (fun yh => nth t yh []) ys)) (seq 0 T).

Definition channels (a : t) : nat := Z.to_nat (n_embd a).
Definition heads (a : t) : nat := Z.to_nat (n_heads a).
Definition head_size (a : t) : nat := (channels a / heads a)%nat.

(** Lines 67 to 71: the query ([i = 0]), key ([i = 1]) or value
    ([i = 2]) rows of head [h]. *)
Definition split_head (a : t) (i h : nat) (x : mat) : mat :=
  let qkv := map (Linear.forward (c_attn a)) x in
  map (fun r => chunk (head_size a) h (chunk (channels a) i r)) qkv.

(** The attention weights of head [h] on the sequence [x]. *)
Definition att (a : t) (h : nat) (x : mat) : mat :=
  weights (bias a) (head_size a) (split_head a 0 h x) (split_head a 1 h x).

(** [forward] on one sequence of the batch, [x] of shape T x C: no
    operation of the layer mixes the sequences of a batch.  [C] is the
    width [n_embd] that [c_attn] expects of its input. *)
Definition forward (a : t) (x : mat) : mat :=
  let T := length x in
  let y := map (fun h => matmul (att a h x) (split_head a 2 h x) (head_size a))
               (seq 0 (heads a)) in
  let y := merge_heads T y in
  map (Linear.forward (c_proj a)) y.

Definition shaped (config : ModelArgs.t) (a : t) : Prop :=
  let E := Z.to_nat (ModelArgs.n_embd config) in
  max_seq_len a = ModelArgs.max_seq_len config /\
  n_embd a = ModelArgs.n_embd config /\
  n_heads a = ModelArgs.n_heads config /\
  head_dim a = (ModelArgs.n_embd config / ModelArgs.n_heads config)%Z /\
  (0 < n_heads a)%Z /\ (0 < head_dim a)%Z /\
  (head_dim a * n_heads a = n_embd a)%Z /\
  Linear.shaped (3 * E) E (c_attn a) /\ Linear.bias (c_attn a) <> None /\
  Linear.shaped E E (c_proj a) /\ Linear.bias (c_proj a) <> None /\
  bias a = tril_ones (Z.to_nat (ModelArgs.max_seq_len config)).
End CausalSelfAttention.

Module FeedForward.
Record t : Type := mk {
  n_embd : Z;
  hidden_dim : Z;
  c_fc : Linear.t;
  c_proj : Linear.t
}.

(** [__init__]; the two linear layers as drawn by the initialiser. *)
Definition init (n_embd hidden_dim : Z) (w_fc w_proj : Linear.t) : result t :=
  let* _ := check_size n_embd in
  let* _ := check_size hidden_dim in
  Ok (mk n_embd hidden_dim w_fc w_proj).

Definition forward (f : t) (x : mat) : mat :=
  let x := map (Linear.forward (c_fc f)) x in
  let x := map (map gelu_tanh) x in
  let x := map (Linear.forward (c_proj f)) x in
  x.

Definition shaped (f : t) : Prop :=
  Linear.shaped (Z.to_nat (hidden_dim f)) (Z.to_nat (n_embd f)) (c_fc f) /\
  Linear.bias (c_fc f) <> None /\
  Linear.shaped (Z.to_nat (n_embd f)) (Z.to_nat (hidden_dim f)) (c_proj f) /\
  Linear.bias (c_proj f) <> None.
End FeedForward.

Module TransformerBlock.
Record t : Type := mk {
  n_heads : Z;
  n_embd : Z;
  head_dim : Z;
  ln_1 : LayerNorm.t;
  attn : CausalSelfAttention.t;
  ln_2 : LayerNorm.t;
  mlp : FeedForward.t
}.

(** The freshly initialised parameters of one block. *)
Record fresh : Type := mkFresh {
  f_ln_1 : LayerNorm.t;
  f_c_attn : Linear.t;
  f_attn_c_proj : Linear.t;
  f_ln_2 : LayerNorm.t;
  f_c_fc : Linear.t;
  f_mlp_c_proj : Linear.t
}.

Definition init (config : ModelArgs.t) (w : fresh) : result t :=
  if (ModelArgs.n_heads config =? 0)%Z then Raise ZeroDivisionError
  else
    let head_dim := (ModelArgs.n_embd config / ModelArgs.n_heads config)%Z in
    let* _ := check_size (ModelArgs.n_embd config) in
    let* attn := CausalSelfAttention.init config (f_c_attn w) (f_attn_c_proj w) in
    let* mlp := FeedForward.init (ModelArgs.n_embd config)
                                 (4 * ModelArgs.n_embd config)
                                 (f_c_fc w) (f_mlp_c_proj w) in
    Ok (mk (ModelArgs.n_heads config) (ModelArgs.n_embd config) head_dim
           (f_ln_1 w) attn (f_ln_2 w) mlp).

(** [x + f(x)] on a sequence, position by position. *)
Definition residual (x fx : mat) : mat := map2 vadd x fx.

Definition forward (b : t) (x : mat) : mat :=
  let x := residual x (CausalSelfAttention.forward (attn b)
                         (map (LayerNorm.forward (ln_1 b)) x)) in
  let x := residual x (FeedForward.forward (mlp b)
                         (map (LayerNorm.forward (ln_2 b)) x)) in
  x.

(** The shapes in which the constructor draws the parameters. *)
Definition fresh_shaped (config : ModelArgs.t) (w : fresh) : Prop :=
  let E := Z.to_nat (ModelArgs.n_embd config) in
  let Hd := Z.to_nat (4 * ModelArgs.n_embd config) in
  LayerNorm.shaped E (f_ln_1 w) /\ LayerNorm.shaped E (f_ln_2 w) /\
  Linear.shaped (3 * E) E (f_c_attn w) /\ Linear.bias (f_c_attn w) <> None /\
  Linear.shaped E E (f_attn_c_proj w) /\ Linear.bias (f_attn_c_proj w) <> None /\
  Linear.shaped Hd E (f_c_fc w) /\ Linear.bias (f_c_fc w) <> None /\
  Linear.shaped E Hd (f_mlp_c_proj w) /\ Linear.bias (f_mlp_c_proj w) <> None.

Definition shaped (config : ModelArgs.t) (b : t) : Prop :=
  let E := Z.to_nat (ModelArgs.n_embd config) in
  LayerNorm.shaped E (ln_1 b) /\ LayerNorm.shaped E (ln_2 b) /\
  CausalSelfAttention.shaped config (attn b) /\
  FeedForward.n_embd (mlp b) = ModelArgs.n_embd config /\
  FeedForward.hidden_dim (mlp b) = (4 * ModelArgs.n_embd config)%Z /\
  FeedForward.shaped (mlp b).
End TransformerBlock.

Module Transformer.
Record t : Type := mk {
  config : ModelArgs.t;
  wte : mat;
  wpe : mat;
  h : list TransformerBlock.t;
  ln_f : LayerNorm.t;
  lm_head : Linear.t
}.

(** The freshly initialised parameters of the model; [f_h i] are those of
    block [i]. *)
Record fresh : Type := mkFresh {
  f_wte : mat;
  f_wpe : mat;
  f_h : nat -> TransformerBlock.fresh;
  f_ln_f : LayerNorm.t;
  f_lm_head : Linear.t
}.

(** [__init__]: [range(n_layers)] is empty for [n_layers <= 0]. *)
Definition init (config : ModelArgs.t) (w : fresh) : result t :=
  let* _ := check_size (ModelArgs.vocab_size config) in
  let* _ := check_size (ModelArgs.n_embd config) in
  let* _ := check_size (ModelArgs.max_seq_len config) in
  let* h := mapM (fun i => TransformerBlock.init config (f_h w i))
                 (seq 0 (Z.to_nat (ModelArgs.n_layers config))) in
  Ok (mk config (f_wte w) (f_wpe w) h (f_ln_f w) (f_lm_head w)).

(** The blocks in order on every sequence of the batch. *)
Definition blocks (hs : list TransformerBlock.t) (x : list mat) : list mat :=
  fold_left (fun x block => map (TransformerBlock.forward block) x) hs x.

(** [forward]: the logits, one T x V matrix per sequence of the batch, and
    the loss when targets are given.  Only the loss mixes the sequences. *)
Definition forward (m : t) (idx : LongTensor) (targets : option LongTensor)
  : result (list mat * option scalar) :=
  let T := size1 idx in
  if negb (Z.of_nat T <=? ModelArgs.max_seq_len (config m))%Z
  then Raise AssertionError
  else
    let pos := map Z.of_nat (seq 0 T) in
    let* pos_emb := mapM (Embedding.forward (wpe m)) pos in
    let* tok_emb := mapM (mapM (Embedding.forward (wte m))) (rows idx) in
    let x := map (fun tok => map2 vadd tok pos_emb) tok_emb in
    let x := blocks (h m) x in
    let x := map (map (LayerNorm.forward (ln_f m))) x in
    let logits := map (map (Linear.forward (lm_head m))) x in
    match targets with
    | None => Ok (logits, None)
    | Some tg =>
        let* loss := cross_entropy (concat logits) (concat (rows tg)) in
        Ok (logits, Some loss)
    end.

(** The shapes in which the constructor draws the parameters. *)
Definition fresh_shaped (config : ModelArgs.t) (w : fresh) : Prop :=
  let E := Z.to_nat (ModelArgs.n_embd config) in
  let V := Z.to_nat (ModelArgs.vocab_size config) in
  let L := Z.to_nat (ModelArgs.max_seq_len config) in
  Embedding.shaped V E (f_wte w) /\
  Embedding.shaped L E (f_wpe w) /\
  (forall i, TransformerBlock.fresh_shaped config (f_h w i)) /\
  LayerNorm.shaped E (f_ln_f w) /\
  Linear.shaped V E (f_lm_head w) /\ Linear.bias (f_lm_head w) = None.

(** One sequence through the blocks, the final norm and the head. *)
Definition chain (hs : list TransformerBlock.t) (x : mat) : mat :=
  fold_left (fun x block => TransformerBlock.forward block x) hs x.

Definition seq_logits (m : t) (x : mat) : mat :=
  map (Linear.forward (lm_head m)) (map (LayerNorm.forward (ln_f m)) (chain (h m) x)).


Definition shaped (m : t) : Prop :=
  let E := Z.to_nat (ModelArgs.n_embd (config m)) in
  let V := Z.to_nat (ModelArgs.vocab_size (config m)) in
  let L := Z.to_nat (ModelArgs.max_seq_len (config m)) in
  (0 <= ModelArgs.vocab_size (config m))%Z /\
  (0 <= ModelArgs.max_seq_len (config m))%Z /\
  Embedding.shaped V E (wte m) /\
  Embedding.shaped L E (wpe m) /\
  length (h m) = Z.to_nat (ModelArgs.n_layers (config m)) /\
  Forall (TransformerBlock.shaped (config m)) (h m) /\
  LayerNorm.shaped E (ln_f m) /\
  Linear.shaped V E (lm_head m) /\ Linear.bias (lm_head m) = None.
End Transformer.

(** ** The feed-forward block in the words of the specification *)

Section FeedForwardSpec.
Local Open Scope R_scope.

(** A linear map from width [inn] to width [out], entry by entry:
    output [o] is the sum over [i] of [x_i * W_(o,i)], plus [b_o]. *)
Definition linear_spec (W : mat) (b : vec) (out inn : nat) (x : vec) : vec :=
  map (fun o =>
         rsum (map (fun i => nth i x 0 * nth i (nth o W []) 0) (seq 0 inn))
         + nth o b 0)
      (seq 0 out).

(** Expansion from [E] to [Hd], the tanh form of GELU on every entry,
    contraction back to [E], at every position. *)
Definition feed_forward_spec (E Hd : nat) (W1 : mat) (b1 : vec)
           (W2 : mat) (b2 : vec) (x : mat) : mat :=
  map (fun v => linear_spec W2 b2 E Hd (map gelu_tanh (linear_spec W1 b1 Hd E v))) x.
End FeedForwardSpec.

(** ** Pretrained-weight importer: [Transformer.from_pretrained] *)

Module Importer.
Local Open Scope string_scope.

(** A tensor of a state dict: its shape and its entries in row-major
    order. *)
Record tensor : Type := mkT { shape : list nat; data : list R }.

(** Entry [(i, j)] of a two-dimensional tensor. *)
Definition at2 (x : tensor) (i j : nat) : R :=
  nth (i * nth 1 (shape x) 0 + j) (data x) 0%R.

Definition transpose_data (r c : nat) (d : list R) : list R :=
  concat (map (fun j => map (fun i => nth (i * c + j) d 0%R) (seq 0 r)) (seq 0 c)).

(** [x.t()]: the transpose of a matrix, the tensor itself below two
    dimensions, an error above. *)
Definition t (x : tensor) : result tensor :=
  match shape x with
  | [] | [_] => Ok x
  | [r; c] => Ok (mkT [c; r] (transpose_data r c (data x)))
  | _ => Raise RuntimeError
  end.

(** [k.endswith(w)]. *)
Definition endswith (k w : string) : bool :=
  (String.length w <=? String.length k)%nat
  && String.eqb (substring (String.length k - String.length w) (String.length w) k) w.

Definition transposed : list string :=
  ["attn.c_attn.weight"; "attn.c_proj.weight"; "mlp.c_fc.weight"; "mlp.c_proj.weight"].

(** [any(k.endswith(w) for w in transposed)]. *)
Definition is_transposed (k : string) : bool := existsb (endswith k) transposed.

(** The four presets of line 170. *)
Definition config_args (model_type : string) : option ModelArgs.t :=
  if String.eqb model_type "gpt2" then Some (ModelArgs.mk 1024 50257 12 12 768 256 None)
  else if String.eqb model_type "gpt2-medium" then Some (ModelArgs.mk 1024 50257 24 16 1024 256 None)
  else if String.eqb model_type "gpt2-large" then Some (ModelArgs.mk 1024 50257 36 20 1280 256 None)
  else if String.eqb model_type "gpt2-xl" then Some (ModelArgs.mk 1024 50257 48 25 1600 256 None)
  else None.

(** The body of the loop for one key [k] of the checkpoint with its
    tensor [v]: [sd[k]] is a [KeyError] for a name the model does not
    have; [copy_] overwrites the entries of the model's tensor. *)
Definition copy_one (sd : gmap string tensor) (kv : string * tensor)
  : result (gmap string tensor) :=
  let (k, v) := kv in
  if is_transposed k then
    match sd !! k with
    | None => Raise KeyError
    | Some dst =>
        if decide (rev (shape v) = shape dst)
        then let* vt := t v in Ok (<[k := vt]> sd)
        else Raise AssertionError
    end
  else
    match sd !! k with
    | None => Raise KeyError
    | Some dst =>
        if decide (shape v = shape dst)
        then Ok (<[k := v]> sd)
        else Raise AssertionError
    end.

(** The loop of line 197 over the items of the checkpoint in order.  The
    tensors of the model are written in place, so the state dict reached
    when an exception stops the loop is returned with it. *)
Fixpoint copy_loop (items : list (string * tensor)) (sd : gmap string tensor)
  : gmap string tensor * option exn :=
  match items with
  | [] => (sd, None)
  | kv :: rest =>
      match copy_one sd kv with
      | Ok sd' => copy_loop rest sd'
      | Raise e => (sd, Some e)
      end
  end.

(** Lines 183, 191 and 192: the names that are not mask buffers. *)
Definition sd_keys (sd : gmap string tensor) : list string :=
  List.filter (fun k => negb (endswith k ".attn.bias")) (map fst (map_to_list sd)).

Definition sd_items_hf (sd_hf : list (string * tensor)) : list (string * tensor) :=
  List.filter (fun kv => negb (endswith (fst kv) ".attn.bias"))
    (List.filter (fun kv => negb (endswith (fst kv) ".attn.masked_bias")) sd_hf).

(** The objects of the program: the state dict of every model, by
    address. *)
Abbreviation heap := (gmap nat (gmap string tensor)) (only parsing).

(** [from_pretrained], for a heap [h] of objects the caller holds.
    [new_model config] is the state dict of a freshly initialised
    [Transformer(config)], [hf_pretrained model_type] the items of the
    downloaded checkpoint in the order of its state dict.  The result is
    the address of the new model, or the exception, and the heap. *)
Definition from_pretrained
           (new_model : ModelArgs.t -> gmap string tensor)
           (hf_pretrained : string -> list (string * tensor))
           (model_type : string) (h : heap) : result nat * heap :=
  match config_args model_type with
  | None => (Raise AssertionError, h)
  | Some config =>
      let model := fresh (dom h) in
      let sd := new_model config in
      let h := <[model := sd]> h in
      let items := sd_items_hf (hf_pretrained model_type) in
      if negb (Nat.eqb (length items) (length (sd_keys sd)))
      then (Raise AssertionError, h)
      else
        let (sd', err) := copy_loop items sd in
        let h := <[model := sd']> h in
        match err with
        | None => (Ok model, h)
        | Some e => (Raise e, h)
        end
  end.

(** What the copy of key [k] stores for the checkpoint tensor [v]. *)
Definition converted (k : string) (v : tensor) : tensor :=
  if is_transposed k
  then match shape v with
       | [r; c] => mkT [c; r] (transpose_data r c (data v))
       | _ => v
       end
  else v.

(** The tensor [v] of key [k] fits the model's tensor [dst] under the
    transpose rule. *)
Definition fits (k : string) (v dst : tensor) : Prop :=
  if is_transposed k
  then rev (shape v) = shape dst /\ (length (shape v) <= 2)%nat
  else shape v = shape dst.
End Importer.

(** ** Concrete models and inputs *)

Module Examples.
Local Open Scope R_scope.

(** GPT-2 small, and the same with a width of 770. *)
Definition gpt2 : ModelArgs.t := ModelArgs.mk 1024 50257 12 12 768 256 None.



(** A model small enough to write down: three positions, three tokens,
    one layer, two heads of width one. *)
Definition tiny : ModelArgs.t := ModelArgs.mk 3 3 1 2 2 256 None.

Definition tiny_block_fresh : TransformerBlock.fresh :=
  TransformerBlock.mkFresh
    (LayerNorm.mk [1; 1] [0; 0])
    (Linear.mk [[1; 0]; [0; 1]; [1; 1]; [0; 1]; [1; 0]; [1; 2]]
               (Some [0; 0; 0; 0; 0; 0]))
    (Linear.mk [[1; 0]; [0; 1]] (Some [0; 0]))
    (LayerNorm.mk [1; 1] [0; 0])
    (Linear.mk [[1; 0]; [0; 1]; [1; 1]; [1; 0]; [0; 1]; [1; 1]; [1; 0]; [0; 1]]
               (Some [0; 0; 0; 0; 0; 0; 0; 0]))
    (Linear.mk [[1; 0; 0; 0; 0; 0; 0; 0]; [0; 1; 0; 0; 0; 0; 0; 0]] (Some [0; 0])).

Definition tiny_fresh : Transformer.fresh :=
  Transformer.mkFresh
    [[1; 0]; [0; 1]; [1; 1]]
    [[0; 0]; [1; 0]; [0; 1]]
    (fun _ => tiny_block_fresh)
    (LayerNorm.mk [1; 1] [0; 0])
    (Linear.mk [[1; 0]; [0; 1]; [1; 1]] None).

Definition tiny_attn : CausalSelfAttention.t :=
  CausalSelfAttention.mk 3 2 2 1
    (TransformerBlock.f_c_attn tiny_block_fresh)
    (TransformerBlock.f_attn_c_proj tiny_block_fresh)
    (tril_ones 3).

Definition tiny_mlp : FeedForward.t :=
  FeedForward.mk 2 8
    (TransformerBlock.f_c_fc tiny_block_fresh)
    (TransformerBlock.f_mlp_c_proj tiny_block_fresh).

Definition tiny_block : TransformerBlock.t :=
  TransformerBlock.mk 2 2 1
    (TransformerBlock.f_ln_1 tiny_block_fresh) tiny_attn
    (TransformerBlock.f_ln_2 tiny_block_fresh) tiny_mlp.

Definition tiny_model : Transformer.t :=
  Transformer.mk tiny (Transformer.f_wte tiny_fresh) (Transformer.f_wpe tiny_fresh)
                 [tiny_block] (Transformer.f_ln_f tiny_fresh)
                 (Transformer.f_lm_head tiny_fresh).

(** Two batches of one sequence that differ in the last token only, a
    matrix of targets, and a batch that is too long. *)
Definition batch1 : LongTensor := mkLong 1 3 [[0; 1; 2]]%Z.
Definition too_long : LongTensor := mkLong 1 4 [[0; 1; 2; 0]]%Z.



(** Activations of two positions. *)
Definition two_positions : mat := [[1; 0]; [0; 1]].

Local Open Scope string_scope.

(** A model and checkpoints with one projection weight, the output
    head and the mask buffers. *)
Definition small_model (_ : ModelArgs.t) : gmap string Importer.tensor :=
  <["transformer.h.0.attn.c_attn.weight" := Importer.mkT [3; 2]%nat [0; 0; 0; 0; 0; 0]%R]>
  (<["lm_head.weight" := Importer.mkT [2; 3]%nat [0; 0; 0; 0; 0; 0]%R]>
  (<["transformer.h.0.attn.bias" := Importer.mkT [1; 1; 2; 2]%nat [1; 0; 1; 1]%R]> ∅)).

Definition good_checkpoint (_ : string) : list (string * Importer.tensor) :=
  [("transformer.h.0.attn.c_attn.weight", Importer.mkT [2; 3]%nat [1; 2; 3; 4; 5; 6]%R);
   ("transformer.h.0.attn.bias", Importer.mkT [1; 1; 2; 2]%nat [1; 0; 1; 1]%R);
   ("transformer.h.0.attn.masked_bias", Importer.mkT []%nat [-10000]%R);
   ("lm_head.weight", Importer.mkT [2; 3]%nat [7; 8; 9; 10; 11; 12]%R)].

(** The same with an output head of the wrong shape. *)
Definition bad_checkpoint (_ : string) : list (string * Importer.tensor) :=
  [("transformer.h.0.attn.c_attn.weight", Importer.mkT [2; 3]%nat [1; 2; 3; 4; 5; 6]%R);
   ("lm_head.weight", Importer.mkT [3; 2]%nat [7; 8; 9; 10; 11; 12]%R)].

(** A checkpoint that lacks the output head. *)
Definition short_checkpoint (_ : string) : list (string * Importer.tensor) :=
  [("transformer.h.0.attn.c_attn.weight", Importer.mkT [2; 3]%nat [1; 2; 3; 4; 5; 6]%R)].

(** A heap in which the caller already holds a model. *)
Definition callers_heap : gmap nat (gmap string Importer.tensor) :=
  <[0%nat := small_model gpt2]> ∅.
End Examples.

(** ** The loader's constructor and the training step *)

Module Loader.
Import Batcher.
Local Open Scope Z_scope.

(** Line 223: the number of batches per epoch that the constructor prints,
    [len(self.tokens) // (B * T)]; the division raises for [B * T = 0]. *)
Definition announced_batches (B T : nat) (tokens : list Z) : result Z :=
  if Z.of_nat B * Z.of_nat T =? 0 then Raise ZeroDivisionError
  else Ok (Z.of_nat (length tokens) / (Z.of_nat B * Z.of_nat T)).

(** [__init__] with what it prints: the announced number of batches and
    the loader with its cursor at zero. *)
Definition construct (B T : nat) (tokens : list Z) : result (Z * DataLoaderLite) :=
  let* n := announced_batches B T tokens in
  Ok (n, init B T tokens).

(** The number of windows of [B*T + 1] tokens at multiples of [B*T]. *)
Definition windows (d : DataLoaderLite) : Z :=
  (Z.of_nat (length (tokens d)) - 1) / BT d.


End Loader.

(** ** More sample data *)

Module Samples.
Local Open Scope R_scope.



(** A checkpoint tensor of shape 2 x 3. *)
Definition two_by_three : Importer.tensor :=
  Importer.mkT [2; 3]%nat [1; 2; 3; 4; 5; 6].
End Samples.

(** * Theorems *)

Module BatcherProofs.
Import Batcher.
Local Open Scope Z_scope.

Lemma py_slice_window {A : Type} (l : list A) (p n : Z) :
  0 <= p -> 0 <= n -> p + n <= Z.of_nat (length l) ->
  py_slice l p (p + n) = firstn (Z.to_nat n) (skipn (Z.to_nat p) l).
Proof.
  intros Hp Hn Hle. unfold py_slice, norm_index.
  destruct (Z.ltb_spec p 0); [lia|].
  destruct (Z.ltb_spec (p + n) 0); [lia|].
  rewrite !Z.min_l by lia. f_equal. lia.
Qed.

Lemma window_length {A : Type} (l : list A) (p n : nat) :
  (p + n <= length l)%nat -> length (firstn n (skipn p l)) = n.
Proof. intros H. rewrite length_firstn, length_skipn. lia. Qed.

Lemma py_slice_drop_last {A : Type} (l : list A) :
  py_slice l 0 (-1) = firstn (length l - 1) l.
Proof.
  unfold py_slice, norm_index.
  change (0 <? 0) with false. change (-1 <? 0) with true. cbv iota.
  rewrite Z.min_l by lia. change (Z.to_nat 0) with 0%nat. rewrite skipn_O.
  f_equal. lia.
Qed.

Lemma py_slice_tail {A : Type} (l : list A) :
  py_slice l 1 (Z.of_nat (length l)) = skipn 1 l.
Proof.
  unfold py_slice, norm_index.
  change (1 <? 0) with false. cbv iota.
  destruct (Z.ltb_spec (Z.of_nat (length l)) 0); [lia|].
  rewrite Z.min_id.
  destruct l as [|a l]; [reflexivity|].
  rewrite Z.min_l by (simpl length; lia).
  replace (Z.to_nat 1) with 1%nat by reflexivity.
  apply firstn_all2. rewrite length_skipn. lia.
Qed.

Lemma reshape_length {A : Type} (B T : nat) (l : list A) :
  length (reshape B T l) = B.
Proof. unfold reshape. now rewrite length_map, length_seq. Qed.

Lemma reshape_rows {A : Type} (B T : nat) (l : list A) :
  length l = (B * T)%nat ->
  Forall (fun r => length r = T) (reshape B T l).
Proof.
  intros Hl. unfold reshape. apply List.Forall_forall. intros r Hr.
  apply in_map_iff in Hr as (b & <- & Hb). apply in_seq in Hb.
  apply window_length. nia.
Qed.

(** Flattening the rows of a reshaped buffer gives the buffer back. *)
Lemma concat_reshape_from {A : Type} (T n s : nat) (l : list A) :
  concat (map (fun b => firstn T (skipn (b * T) l)) (seq s n))
  = firstn (n * T) (skipn (s * T) l).
Proof.
  revert s. induction n as [|n IH]; intros s; [reflexivity|].
  cbn [seq map concat]. rewrite IH.
  replace (S n * T)%nat with (T + n * T)%nat by lia.
  replace (S s * T)%nat with (T + s * T)%nat by lia.
  rewrite <- skipn_skipn.
  set (m := skipn (s * T) l).
  rewrite <- (firstn_skipn T (firstn (T + n * T) m)) at 1.
  rewrite firstn_firstn, Nat.min_l by lia.
  f_equal. rewrite skipn_firstn_comm. f_equal. lia.
Qed.

Lemma concat_reshape {A : Type} (B T : nat) (l : list A) :
  length l = (B * T)%nat -> concat (reshape B T l) = l.
Proof.
  intros Hl. unfold reshape. rewrite concat_reshape_from.
  simpl. apply firstn_all2. lia.
Qed.

Section Window.
Variable d : DataLoaderLite.
Hypothesis Hok : cursor_ok d.

Let p : nat := Z.to_nat (current_position d).
Let n : nat := (B d * T d)%nat.

Lemma buf_window :
  py_slice (tokens d) (current_position d) (current_position d + BT d + 1)
  = firstn (S n) (skipn p (tokens d)).
Proof.
  destruct Hok as [H0 H1]. unfold BT in *.
  rewrite <- Z.add_assoc, py_slice_window by lia.
  f_equal. subst n. lia.
Qed.

Lemma buf_length : length (firstn (S n) (skipn p (tokens d))) = S n.
Proof.
  destruct Hok as [H0 H1]. unfold BT in *.
  apply window_length. subst p n. lia.
Qed.

Lemma inputs_window :
  py_slice (firstn (S n) (skipn p (tokens d))) 0 (-1)
  = firstn n (skipn p (tokens d)).
Proof.
  rewrite py_slice_drop_last, buf_length, firstn_firstn.
  f_equal. lia.
Qed.

Lemma targets_window :
  py_slice (firstn (S n) (skipn p (tokens d))) 1
           (Z.of_nat (length (firstn (S n) (skipn p (tokens d)))))
  = firstn n (skipn (S p) (tokens d)).
Proof.
  rewrite py_slice_tail, skipn_firstn_comm, skipn_skipn.
  f_equal. lia.
Qed.

Lemma inputs_length : length (firstn n (skipn p (tokens d))) = n.
Proof.
  destruct Hok as [H0 H1]. unfold BT in *.
  apply window_length. subst p n. lia.
Qed.

Lemma targets_length : length (firstn n (skipn (S p) (tokens d))) = n.
Proof.
  destruct Hok as [H0 H1]. unfold BT in *.
  apply window_length. subst p n. lia.
Qed.

Lemma next_batch_eq :
  next_batch d =
  Ok (reshape (B d) (T d) (firstn n (skipn p (tokens d))),
      reshape (B d) (T d) (firstn n (skipn (S p) (tokens d))),
      mkLoader (B d) (T d) (tokens d)
        (if current_position d + BT d + (BT d + 1) >? Z.of_nat (length (tokens d))
         then 0 else current_position d + BT d)).
Proof.
  unfold next_batch. rewrite buf_window, inputs_window, targets_window.
  unfold view2. rewrite inputs_length, targets_length.
  subst n. rewrite Nat.eqb_refl. reflexivity.
Qed.

(** The target window is the input window moved by one token. *)
Lemma shifted (i : nat) (dflt : Z) :
  (S i < n)%nat ->
  nth i (firstn n (skipn (S p) (tokens d))) dflt
  = nth (S i) (firstn n (skipn p (tokens d))) dflt.
Proof.
  intros Hi.
  rewrite !nth_firstn.
  destruct (Nat.ltb_spec i n); [|lia].
  destruct (Nat.ltb_spec (S i) n); [|lia].
  rewrite !nth_skipn. f_equal. lia.
Qed.
End Window.

Lemma next_batch_keeps_cursor_ok (d : DataLoaderLite) :
  cursor_ok d ->
  exists x y d', next_batch d = Ok (x, y, d') /\
    B d' = B d /\ T d' = T d /\ tokens d' = tokens d /\ cursor_ok d'.
Proof.
  intros Hok. rewrite (next_batch_eq d Hok).
  eexists _, _, _. split; [reflexivity|]. cbn [B T tokens].
  repeat split; trivial; unfold cursor_ok, BT in *; cbn [B T tokens current_position];
    destruct Hok as [H0 H1];
    destruct (Z.gtb_spec
      (current_position d + Z.of_nat (B d) * Z.of_nat (T d)
       + (Z.of_nat (B d) * Z.of_nat (T d) + 1))
      (Z.of_nat (length (tokens d)))); nia.
Qed.

Lemma run_keeps_cursor_ok (n : nat) (d : DataLoaderLite) :
  cursor_ok d ->
  exists d', run n d = Ok d' /\
    B d' = B d /\ T d' = T d /\ tokens d' = tokens d /\ cursor_ok d'.
Proof.
  revert d. induction n as [|n IH]; intros d Hok.
  - exists d. repeat split; trivial; apply Hok.
  - destruct (next_batch_keeps_cursor_ok d Hok) as (x & y & d1 & E & HB & HT & Htk & Hok1).
    cbn [run]. rewrite E.
    destruct (IH d1 Hok1) as (d2 & E2 & HB2 & HT2 & Htk2 & Hok2).
    exists d2. repeat split; try congruence; apply Hok2.
Qed.

(** On the stream of the spec's example the cursor is back at zero after the
    166th call: 165 batches of six tokens fit, the next read would not. *)
Example wrap_on_overflow :
  run 165 (init 2 3 (range 1000)) = Ok (mkLoader 2 3 (range 1000) 990) /\
  run 166 (init 2 3 (range 1000)) = Ok (mkLoader 2 3 (range 1000) 0).
Proof. split; vm_compute; reflexivity. Qed.

(** C5: with the cursor at [p] and [p + B*T + 1 <= M], [next_batch] returns
    as inputs the [B*T] tokens from [p] and as targets the [B*T] tokens from
    [p+1], both reshaped to [B] rows of [T]; the target at flat position [i]
    is the input at flat position [i+1]; the cursor moves by [B*T] and is
    reset to zero exactly when the read after that would pass the end of
    the stream.  On the stream 0..999 with B=2, T=3 the first call gives
    [[0,1,2],[3,4,5]] and [[1,2,3],[4,5,6]] and leaves the cursor at 6. *)
Theorem next_batch_window (d : DataLoaderLite) :
  0 <= current_position d ->
  current_position d + BT d + 1 <= Z.of_nat (length (tokens d)) ->
  let p := Z.to_nat (current_position d) in
  let n := (B d * T d)%nat in
  let inputs := firstn n (skipn p (tokens d)) in
  let targets := firstn n (skipn (S p) (tokens d)) in
  (exists x y d',
     next_batch d = Ok (x, y, d') /\
     x = reshape (B d) (T d) inputs /\
     y = reshape (B d) (T d) targets /\
     length inputs = n /\ length targets = n /\
     length x = B d /\ Forall (fun r => length r = T d) x /\
     length y = B d /\ Forall (fun r => length r = T d) y /\
     concat x = inputs /\ concat y = targets /\
     (forall (i : nat) (dflt : Z),
        (S i < n)%nat -> nth i (concat y) dflt = nth (S i) (concat x) dflt) /\
     B d' = B d /\ T d' = T d /\ tokens d' = tokens d /\
     current_position d' =
       (if current_position d + BT d + (BT d + 1) >? Z.of_nat (length (tokens d))
        then 0 else current_position d + BT d)) /\
  next_batch (init 2 3 (range 1000))
  = Ok ([[0; 1; 2]; [3; 4; 5]], [[1; 2; 3]; [4; 5; 6]],
        mkLoader 2 3 (range 1000) 6).
Proof.
  intros H0 H1 p n inputs targets.
  assert (Hok : cursor_ok d) by (split; assumption).
  split; [|vm_compute; reflexivity].
  pose proof (inputs_length d Hok) as Hli.
  pose proof (targets_length d Hok) as Hlt.
  fold p n in Hli, Hlt. fold inputs in Hli. fold targets in Hlt.
  eexists _, _, _. split; [apply (next_batch_eq d Hok)|].
  fold p n inputs targets.
  split; [reflexivity|]. split; [reflexivity|].
  split; [exact Hli|]. split; [exact Hlt|].
  split; [apply reshape_length|]. split; [apply reshape_rows; exact Hli|].
  split; [apply reshape_length|]. split; [apply reshape_rows; exact Hlt|].
  split; [apply concat_reshape; exact Hli|].
  split; [apply concat_reshape; exact Hlt|].
  split.
  - intros i dflt Hi. rewrite !concat_reshape by assumption.
    apply (shifted d i dflt Hi).
  - cbn [B T tokens current_position]. repeat split; reflexivity.
Qed.

Lemma next_batch_window_witness :
  0 <= current_position (init 2 3 (range 1000)) /\
  current_position (init 2 3 (range 1000)) + BT (init 2 3 (range 1000)) + 1
    <= Z.of_nat (length (tokens (init 2 3 (range 1000)))) /\
  exists x y d', next_batch (init 2 3 (range 1000)) = Ok (x, y, d').
Proof.
  assert (H0 : 0 <= current_position (init 2 3 (range 1000)))
    by (vm_compute; discriminate).
  assert (H1 : current_position (init 2 3 (range 1000)) + BT (init 2 3 (range 1000)) + 1
               <= Z.of_nat (length (tokens (init 2 3 (range 1000)))))
    by (vm_compute; discriminate).
  split; [exact H0|]. split; [exact H1|].
  destruct (next_batch_window (init 2 3 (range 1000)) H0 H1)
    as [(x & y & d' & E & _) _].
  exists x, y, d'. exact E.
Defined.

(** C10: when the stream holds at least [B*T + 1] tokens, the cursor
    invariant [0 <= current_position] and
    [current_position + B*T + 1 <= M] holds at construction and after every
    call of [next_batch]; under it the read of [B*T + 1] tokens is in bounds
    (the buffer has exactly that many tokens) and inputs and targets are
    well-formed [B] by [T] matrices. *)
Theorem cursor_invariant (b t : nat) (toks : list Z) :
  Z.of_nat b * Z.of_nat t + 1 <= Z.of_nat (length toks) ->
  cursor_ok (init b t toks) /\
  (forall d : DataLoaderLite,
     B d = b -> T d = t -> tokens d = toks -> cursor_ok d ->
     length (py_slice (tokens d) (current_position d)
                      (current_position d + BT d + 1)) = S (b * t) /\
     exists x y d',
       next_batch d = Ok (x, y, d') /\
       length x = b /\ Forall (fun r => length r = t) x /\
       length y = b /\ Forall (fun r => length r = t) y /\
       B d' = b /\ T d' = t /\ tokens d' = toks /\ cursor_ok d') /\
  (forall k : nat,
     exists d', run k (init b t toks) = Ok d' /\
       B d' = b /\ T d' = t /\ tokens d' = toks /\ cursor_ok d').
Proof.
  intros HM.
  assert (Hinit : cursor_ok (init b t toks)).
  { unfold cursor_ok, BT. cbn [init B T tokens current_position]. lia. }
  split; [exact Hinit|]. split.
  - intros d HB HT Htk Hok. split.
    + rewrite (buf_window d Hok), (buf_length d Hok). now rewrite HB, HT.
    + rewrite (next_batch_eq d Hok).
      destruct (next_batch_keeps_cursor_ok d Hok) as (x & y & d' & E & HB' & HT' & Htk' & Hok').
      rewrite (next_batch_eq d Hok) in E. injection E as Ex Ey Ed.
      eexists _, _, _. split; [reflexivity|].
      rewrite Ed.
      split; [rewrite reshape_length; exact HB|].
      split; [rewrite <- HT; apply reshape_rows, (inputs_length d Hok)|].
      split; [rewrite reshape_length; exact HB|].
      split; [rewrite <- HT; apply reshape_rows, (targets_length d Hok)|].
      repeat split; try congruence; apply Hok'.
  - intros k. destruct (run_keeps_cursor_ok k _ Hinit) as (d' & E & HB & HT & Htk & Hok).
    exists d'. cbn [init B T tokens] in *. repeat split; try assumption; apply Hok.
Qed.

Lemma cursor_invariant_witness :
  Z.of_nat 2 * Z.of_nat 3 + 1 <= Z.of_nat (length (range 1000)) /\
  cursor_ok (init 2 3 (range 1000)).
Proof.
  assert (H : Z.of_nat 2 * Z.of_nat 3 + 1 <= Z.of_nat (length (range 1000)))
    by (vm_compute; discriminate).
  split; [exact H|]. exact (proj1 (cursor_invariant 2 3 (range 1000) H)).
Defined.

End BatcherProofs.

Module ConstructionProofs.
Import Examples.
Local Open Scope Z_scope.

Lemma divisibility_check_ok (config : ModelArgs.t) :
  ModelArgs.n_heads config <> 0 ->
  (ModelArgs.n_heads config | ModelArgs.n_embd config) ->
  CausalSelfAttention.divisibility_check config
  = Ok (ModelArgs.n_embd config / ModelArgs.n_heads config).
Proof.
  intros HH [z Hz]. unfold CausalSelfAttention.divisibility_check.
  destruct (Z.eqb_spec (ModelArgs.n_heads config) 0) as [|_]; [contradiction|].
  rewrite Hz, Z.div_mul, Z.eqb_refl, Z.mod_mul, Z.eqb_refl by assumption.
  reflexivity.
Qed.





Lemma check_size_ok (n : Z) : 0 <= n -> check_size n = Ok tt.
Proof. intros H. unfold check_size. destruct (Z.ltb_spec n 0); [lia|reflexivity]. Qed.



(** *** What the constructor builds *)

Section Constructed.
Variable config : ModelArgs.t.
Hypothesis Hheads : 0 < ModelArgs.n_heads config.
Hypothesis Hembd : 0 < ModelArgs.n_embd config.
Hypothesis Hdiv : (ModelArgs.n_heads config | ModelArgs.n_embd config).
Hypothesis Hlen : 0 <= ModelArgs.max_seq_len config.
Hypothesis Hvocab : 0 <= ModelArgs.vocab_size config.

Lemma head_dim_pos : 0 < ModelArgs.n_embd config / ModelArgs.n_heads config.
Proof.
  destruct Hdiv as [z Hz]. rewrite Hz, Z.div_mul by lia. nia.
Qed.

Lemma attention_init_shaped (w1 w2 : Linear.t) :
  Linear.shaped (3 * Z.to_nat (ModelArgs.n_embd config))
                (Z.to_nat (ModelArgs.n_embd config)) w1 ->
  Linear.bias w1 <> None ->
  Linear.shaped (Z.to_nat (ModelArgs.n_embd config))
                (Z.to_nat (ModelArgs.n_embd config)) w2 ->
  Linear.bias w2 <> None ->
  exists a, CausalSelfAttention.init config w1 w2 = Ok a /\
            CausalSelfAttention.shaped config a.
Proof.
  intros H1 Hb1 H2 Hb2. unfold CausalSelfAttention.init.
  rewrite (divisibility_check_ok config) by (assumption || lia). cbn [bind].
  rewrite !check_size_ok by lia. cbn [bind].
  destruct (Z.eqb_spec (ModelArgs.n_embd config) 0); [lia|].
  eexists. split; [reflexivity|].
  pose proof head_dim_pos as Hhd.
  unfold CausalSelfAttention.shaped. cbn.
  repeat split; try assumption; try apply H1; try apply H2.
  destruct Hdiv as [z Hz]. rewrite Hz at 1. now rewrite Z.div_mul by lia.
Qed.

Lemma block_init_shaped (w : TransformerBlock.fresh) :
  TransformerBlock.fresh_shaped config w ->
  exists b, TransformerBlock.init config w = Ok b /\
            TransformerBlock.shaped config b.
Proof.
  intros (Hl1 & Hl2 & Ha & Hab & Hp & Hpb & Hf & Hfb & Hc & Hcb).
  destruct (attention_init_shaped _ _ Ha Hab Hp Hpb) as (a & Ea & Hsa).
  unfold TransformerBlock.init.
  destruct (Z.eqb_spec (ModelArgs.n_heads config) 0); [lia|].
  rewrite check_size_ok by lia. cbn [bind]. rewrite Ea. cbn [bind].
  unfold FeedForward.init. rewrite !check_size_ok by lia. cbn [bind].
  eexists. split; [reflexivity|].
  unfold TransformerBlock.shaped, FeedForward.shaped. cbn.
  split; [exact Hl1|]. split; [exact Hl2|]. split; [exact Hsa|].
  split; [reflexivity|]. split; [reflexivity|].
  split; [exact Hf|]. split; [exact Hfb|]. split; [exact Hc|exact Hcb].
Qed.

Lemma blocks_init_shaped (f : nat -> TransformerBlock.fresh) (s n : nat) :
  (forall i, TransformerBlock.fresh_shaped config (f i)) ->
  exists h, mapM (fun i => TransformerBlock.init config (f i)) (seq s n) = Ok h /\
            length h = n /\ Forall (TransformerBlock.shaped config) h.
Proof.
  intros Hf. revert s. induction n as [|n IH]; intros s; cbn [seq mapM].
  - exists []. repeat split. constructor.
  - destruct (block_init_shaped (f s) (Hf s)) as (b & Eb & Hb).
    destruct (IH (S s)) as (h & Eh & Hlenh & Hh).
    rewrite Eb. cbn [bind]. rewrite Eh. cbn [bind].
    exists (b :: h). repeat split; [cbn; congruence|]. now constructor.
Qed.

(** A configuration with positive head count and width, the width a
    multiple of the head count, builds a model of the shapes that the
    theorems on [forward] assume. *)
Lemma init_shaped (w : Transformer.fresh) :
  Transformer.fresh_shaped config w ->
  exists m, Transformer.init config w = Ok m /\ Transformer.shaped m.
Proof.
  intros (Hwte & Hwpe & Hblocks & Hln & Hlm & Hnb).
  destruct (blocks_init_shaped (Transformer.f_h w) 0
              (Z.to_nat (ModelArgs.n_layers config)) Hblocks) as (h & Eh & Hlenh & Hh).
  unfold Transformer.init. rewrite !check_size_ok by lia. cbn [bind].
  rewrite Eh. cbn [bind]. eexists. split; [reflexivity|].
  unfold Transformer.shaped. cbn.
  split; [exact Hvocab|]. split; [exact Hlen|]. split; [exact Hwte|].
  split; [exact Hwpe|]. split; [exact Hlenh|]. split; [exact Hh|].
  split; [exact Hln|]. split; [exact Hlm|exact Hnb].
Qed.
End Constructed.




End ConstructionProofs.

Module TensorLemmas.
Local Open Scope R_scope.

Lemma map2_length {A B C : Type} (f : A -> B -> C) (l : list A) (l' : list B) :
  length (map2 f l l') = Nat.min (length l) (length l').
Proof.
  revert l'. induction l as [|a l IH]; intros [|b l']; cbn; try reflexivity.
  now rewrite IH.
Qed.



Lemma map2_nil_r {A B C : Type} (f : A -> B -> C) (l : list A) : map2 f l [] = [].
Proof. now destruct l. Qed.

Lemma rsum_nil : rsum [] = 0.
Proof. reflexivity. Qed.

Lemma rsum_cons (a : R) (l : list R) : rsum (a :: l) = a + rsum l.
Proof. reflexivity. Qed.



Lemma rsum_div (c : R) (l : list R) : rsum (map (fun a => a / c) l) = rsum l / c.
Proof.
  induction l as [|a l IH]; cbn [map].
  - rewrite rsum_nil. unfold Rdiv. ring.
  - rewrite !rsum_cons, IH. unfold Rdiv. ring.
Qed.

Lemma rsum_nonneg (l : list R) : Forall (fun a => 0 <= a) l -> 0 <= rsum l.
Proof.
  induction 1 as [|a l Ha _ IH]; [rewrite rsum_nil | rewrite rsum_cons]; lra.
Qed.

Lemma rsum_pos (l : list R) :
  Forall (fun a => 0 <= a) l -> Exists (fun a => 0 < a) l -> 0 < rsum l.
Proof.
  intros Hall Hex. induction Hex as [a l Ha|a l _ IH].
  - inversion Hall as [|? ? _ Hl]; subst. apply rsum_nonneg in Hl.
    rewrite rsum_cons. lra.
  - inversion Hall as [|? ? Ha Hl]; subst. specialize (IH Hl).
    rewrite rsum_cons. lra.
Qed.



(** *** Softmax *)

Lemma exp_shift_nonneg (m x : score) : 0 <= exp_shift m x.
Proof.
  destruct x as [a|], m as [b|]; cbn; try lra; left; apply exp_pos.
Qed.

Lemma exp_shift_pos (m : score) (a : R) : 0 < exp_shift m (Fin a).
Proof. destruct m; cbn; apply exp_pos. Qed.

Lemma softmax_length (row : list score) : length (softmax row) = length row.
Proof. unfold softmax. now rewrite !length_map. Qed.

Lemma softmax_denominator_pos (row : list score) :
  Exists (fun x => exists a, x = Fin a) row ->
  0 < rsum (map (exp_shift (row_max row)) row).
Proof.
  intros Hex. apply rsum_pos.
  - apply List.Forall_forall. intros e He.
    apply in_map_iff in He as (x & <- & _). apply exp_shift_nonneg.
  - apply List.Exists_exists in Hex as (x & Hx & a & ->).
    apply List.Exists_exists. exists (exp_shift (row_max row) (Fin a)).
    split; [apply in_map; exact Hx | apply exp_shift_pos].
Qed.

(** A row with a finite entry is normalised to sum one. *)
Lemma softmax_sums_to_one (row : list score) :
  Exists (fun x => exists a, x = Fin a) row -> rsum (softmax row) = 1.
Proof.
  intros Hex. unfold softmax. rewrite rsum_div.
  pose proof (softmax_denominator_pos row Hex) as Hpos.
  field. lra.
Qed.

Lemma softmax_nonneg (row : list score) :
  Exists (fun x => exists a, x = Fin a) row ->
  Forall (fun w => 0 <= w) (softmax row).
Proof.
  intros Hex. pose proof (softmax_denominator_pos row Hex) as Hpos.
  unfold softmax. apply List.Forall_forall. intros w Hw.
  apply in_map_iff in Hw as (e & <- & He).
  apply in_map_iff in He as (x & <- & _).
  apply Rmult_le_pos; [apply exp_shift_nonneg|].
  left. apply Rinv_0_lt_compat. exact Hpos.
Qed.



(** *** The causal mask *)

Lemma causal_from_length (j0 i : nat) (s : vec) :
  length (causal_from j0 i s) = length s.
Proof. revert j0. induction s as [|a s IH]; intros j0; cbn; [reflexivity|]. now rewrite IH. Qed.



(** The diagonal entry of a row is never masked. *)
Lemma causal_from_diagonal (j0 i : nat) (s : vec) :
  (j0 <= i < j0 + length s)%nat ->
  Exists (fun x => exists a, x = Fin a) (causal_from j0 i s).
Proof.
  revert j0. induction s as [|a s IH]; intros j0 H; cbn in *; [lia|].
  destruct (Nat.leb_spec j0 i); [|lia].
  apply Exists_cons_hd. eauto.
Qed.

Lemma fill_row (i len : nat) (s : vec) (j0 : nat) :
  (length s <= len)%nat ->
  map2 (fun b a => if Req_dec_T b 0 then NegInf else Fin a)
       (map (fun j => if (j <=? i)%nat then 1 else 0) (seq j0 len)) s
  = causal_from j0 i s.
Proof.
  revert len j0. induction s as [|a s IH]; intros len j0 H.
  - apply map2_nil_r.
  - destruct len as [|len]; [cbn in H; lia|]. cbn [seq map map2 causal_from].
    rewrite IH by (cbn in H; lia). f_equal.
    destruct (j0 <=? i)%nat; destruct (Req_dec_T _ 0) as [E|E]; try reflexivity; lra.
Qed.

Lemma fill_rows (T : nat) (S : mat) (i0 len : nat) :
  (length S <= len)%nat ->
  Forall (fun s => (length s <= T)%nat) S ->
  masked_fill
    (map (fun i => map (fun j => if (j <=? i)%nat then 1 else 0) (seq 0 T)) (seq i0 len)) S
  = rows_from (causal_from 0) i0 S.
Proof.
  unfold masked_fill. revert i0 len.
  induction S as [|s S IH]; intros i0 len Hlen Hrows.
  - apply map2_nil_r.
  - destruct len as [|len]; [cbn in Hlen; lia|].
    inversion Hrows as [|? ? Hs HS]; subst.
    cbn [seq map map2 rows_from]. rewrite IH by (cbn in Hlen; lia || assumption).
    f_equal. apply fill_row. exact Hs.
Qed.

(** The [T] by [T] corner of the registered mask is the mask of size [T]. *)
Lemma tril_corner (L T : nat) :
  (T <= L)%nat -> map (firstn T) (firstn T (tril_ones L)) = tril_ones T.
Proof.
  intros H. unfold tril_ones.
  rewrite firstn_map, take_seq, Nat.min_l by assumption.
  rewrite map_map. apply map_ext. intros i.
  now rewrite firstn_map, take_seq, Nat.min_l by assumption.
Qed.

Lemma rows_from_length {A B : Type} (f : nat -> A -> B) (i : nat) (l : list A) :
  length (rows_from f i l) = length l.
Proof. revert i. induction l as [|a l IH]; intros i; cbn; [reflexivity|]. now rewrite IH. Qed.

Lemma rows_from_map {A B C : Type} (f : nat -> B -> C) (g : A -> B) (i : nat) (l : list A) :
  rows_from f i (map g l) = rows_from (fun i a => f i (g a)) i l.
Proof. revert i. induction l as [|a l IH]; intros i; cbn; [reflexivity|]. now rewrite IH. Qed.

Lemma map_rows_from {A B C : Type} (g : B -> C) (f : nat -> A -> B) (i : nat) (l : list A) :
  map g (rows_from f i l) = rows_from (fun i a => g (f i a)) i l.
Proof. revert i. induction l as [|a l IH]; intros i; cbn; [reflexivity|]. now rewrite IH. Qed.



Lemma rows_from_In {A B : Type} (f : nat -> A -> B) (i : nat) (l : list A) (b : B) :
  In b (rows_from f i l) ->
  exists k a, (i <= k < i + length l)%nat /\ In a l /\ b = f k a.
Proof.
  revert i. induction l as [|a l IH]; intros i; cbn; [tauto|].
  intros [<-|H].
  - exists i, a. repeat split; [lia | lia | now left].
  - destruct (IH _ H) as (k & a' & Hk & Ha & ->).
    exists k, a'. repeat split; [lia | lia | now right].
Qed.

End TensorLemmas.

Module AttentionProofs.
Import TensorLemmas.
Local Open Scope R_scope.

Lemma split_head_length (a : CausalSelfAttention.t) (i h : nat) (x : mat) :
  length (CausalSelfAttention.split_head a i h x) = length x.
Proof. unfold CausalSelfAttention.split_head. now rewrite !length_map. Qed.


Lemma weights_rows (L hs : nat) (qh kh : mat) :
  (length qh <= L)%nat -> (length kh <= length qh)%nat ->
  CausalSelfAttention.weights (tril_ones L) hs qh kh
  = rows_from (weight_row hs kh) 0 qh.
Proof.
  intros HL Hk. unfold CausalSelfAttention.weights.
  rewrite tril_corner by assumption. unfold tril_ones.
  rewrite fill_rows.
  - now rewrite rows_from_map, map_rows_from.
  - now rewrite length_map.
  - apply List.Forall_forall. intros s Hs.
    apply in_map_iff in Hs as (q & <- & _). now rewrite length_map.
Qed.

Lemma att_rows (a : CausalSelfAttention.t) (L h : nat) (x : mat) :
  CausalSelfAttention.bias a = tril_ones L -> (length x <= L)%nat ->
  CausalSelfAttention.att a h x
  = rows_from (weight_row (CausalSelfAttention.head_size a)
                          (CausalSelfAttention.split_head a 1 h x))
              0 (CausalSelfAttention.split_head a 0 h x).
Proof.
  intros Hm HL. unfold CausalSelfAttention.att. rewrite Hm.
  apply weights_rows; rewrite !split_head_length; lia.
Qed.

Lemma weight_row_length (hs : nat) (kh : mat) (i : nat) (q : vec) :
  length (weight_row hs kh i q) = length kh.
Proof.
  unfold weight_row. now rewrite softmax_length, causal_from_length, length_map.
Qed.

Lemma weight_row_sum (hs : nat) (kh : mat) (i : nat) (q : vec) :
  (i < length kh)%nat -> rsum (weight_row hs kh i q) = 1.
Proof.
  intros Hi. unfold weight_row. apply softmax_sums_to_one.
  apply causal_from_diagonal. rewrite length_map. lia.
Qed.

(** The mask registered by the constructor. *)
Lemma init_mask (config : ModelArgs.t) (w1 w2 : Linear.t) (a : CausalSelfAttention.t) :
  CausalSelfAttention.init config w1 w2 = Ok a ->
  CausalSelfAttention.max_seq_len a = ModelArgs.max_seq_len config /\
  CausalSelfAttention.bias a
  = tril_ones (Z.to_nat (CausalSelfAttention.max_seq_len a)).
Proof.
  unfold CausalSelfAttention.init.
  destruct (CausalSelfAttention.divisibility_check config); cbn [bind]; [|discriminate].
  destruct (check_size (ModelArgs.n_embd config)); cbn [bind]; [|discriminate].
  destruct (check_size (ModelArgs.max_seq_len config)); cbn [bind]; [|discriminate].
  destruct (ModelArgs.n_embd config =? 0)%Z; [discriminate|].
  intros [= <-]. cbn. split; reflexivity.
Qed.

(** C9: with the lower-triangular mask of the module and a sequence of at
    most [max_seq_len] positions, the attention weights of every head form
    a T by T matrix each row of which sums to one; row [i] keeps a finite
    score on the diagonal, so its normaliser is positive. *)
Theorem attention_rows_sum_to_one
        (a : CausalSelfAttention.t) (h : nat) (x : mat) :
  CausalSelfAttention.bias a
  = tril_ones (Z.to_nat (CausalSelfAttention.max_seq_len a)) ->
  (length x <= Z.to_nat (CausalSelfAttention.max_seq_len a))%nat ->
  length (CausalSelfAttention.att a h x) = length x /\
  Forall (fun row => length row = length x /\ rsum row = 1)
         (CausalSelfAttention.att a h x).
Proof.
  intros Hm HL. rewrite (att_rows a _ h x Hm HL). split.
  - now rewrite rows_from_length, split_head_length.
  - apply List.Forall_forall. intros row Hrow.
    apply rows_from_In in Hrow as (i & q & Hi & _ & ->).
    rewrite split_head_length in Hi. split.
    + now rewrite weight_row_length, split_head_length.
    + apply weight_row_sum. rewrite split_head_length. lia.
Qed.

(** *** Causality of one attention layer *)





Lemma attention_length (a : CausalSelfAttention.t) (x : mat) :
  length (CausalSelfAttention.forward a x) = length x.
Proof.
  unfold CausalSelfAttention.forward, CausalSelfAttention.merge_heads.
  now rewrite !length_map, length_seq.
Qed.


End AttentionProofs.

Module ForwardProofs.
Import TensorLemmas AttentionProofs.
Local Open Scope R_scope.

(** The constructor builds the small model from its fresh parameters, and
    the model has the shapes of its configuration. *)
Example tiny_model_init :
  Transformer.init Examples.tiny Examples.tiny_fresh = Ok Examples.tiny_model.
Proof. reflexivity. Qed.

Lemma tiny_model_shaped : Transformer.shaped Examples.tiny_model.
Proof.
  unfold Transformer.shaped, Embedding.shaped, LayerNorm.shaped, Linear.shaped.
  cbn. repeat split; try lia; try reflexivity; repeat constructor; try discriminate.
Defined.

(** *** The error monad *)

Lemma mapM_length {A B : Type} (f : A -> result B) (l : list A) (ys : list B) :
  mapM f l = Ok ys -> length ys = length l.
Proof.
  revert ys. induction l as [|a l IH]; intros ys; cbn.
  - now intros [= <-].
  - destruct (f a); cbn; [|discriminate].
    destruct (mapM f l); cbn; [|discriminate].
    intros [= <-]. cbn. now rewrite (IH _ eq_refl).
Qed.


Lemma mapM_nth {A B : Type} (f : A -> result B) (l : list A) (ys : list B)
      (da : A) (db : B) :
  mapM f l = Ok ys -> f da = Ok db ->
  forall i, f (nth i l da) = Ok (nth i ys db).
Proof.
  intros H Hd. revert ys H. induction l as [|a l IH]; intros ys; cbn.
  - intros [= <-] i. now destruct i.
  - destruct (f a) eqn:Ea; cbn; [|discriminate].
    destruct (mapM f l); cbn; [|discriminate].
    intros [= <-] [|i]; [exact Ea|]. cbn. now apply IH.
Qed.

Lemma mapM_raise {A B : Type} (f : A -> result B) (l : list A) (e : exn) :
  mapM f l = Raise e -> exists a, In a l /\ f a = Raise e.
Proof.
  induction l as [|a l IH]; cbn; [discriminate|].
  destruct (f a) eqn:Ea; cbn.
  - destruct (mapM f l); cbn; [discriminate|].
    intros [= <-]. destruct (IH eq_refl) as (a' & Hin & Ha'). eauto.
  - intros [= <-]. eauto.
Qed.

Lemma mapM_ok {A B : Type} (f : A -> result B) (l : list A) :
  Forall (fun a => exists b, f a = Ok b) l -> exists ys, mapM f l = Ok ys.
Proof.
  induction 1 as [|a l [b Hb] _ [ys IH]]; cbn; [eauto|].
  rewrite Hb, IH. cbn. eauto.
Qed.

(** *** Blocks *)

Lemma residual_length (x fx : mat) :
  length fx = length x -> length (TransformerBlock.residual x fx) = length x.
Proof. intros H. unfold TransformerBlock.residual. rewrite map2_length. lia. Qed.


Lemma feed_forward_length (f : FeedForward.t) (x : mat) :
  length (FeedForward.forward f x) = length x.
Proof. unfold FeedForward.forward. now rewrite !length_map. Qed.


Lemma block_length (b : TransformerBlock.t) (x : mat) :
  length (TransformerBlock.forward b x) = length x.
Proof.
  unfold TransformerBlock.forward.
  rewrite residual_length; rewrite ?feed_forward_length, ?length_map;
    rewrite residual_length; rewrite ?attention_length, ?length_map; reflexivity.
Qed.


Lemma chain_length (hs : list TransformerBlock.t) (x : mat) :
  length (Transformer.chain hs x) = length x.
Proof.
  unfold Transformer.chain. revert x.
  induction hs as [|b hs IH]; intros x; cbn; [reflexivity|].
  now rewrite IH, block_length.
Qed.


Lemma blocks_map (hs : list TransformerBlock.t) (xs : list mat) :
  Transformer.blocks hs xs = map (Transformer.chain hs) xs.
Proof.
  unfold Transformer.blocks, Transformer.chain. revert xs.
  induction hs as [|b hs IH]; intros xs; cbn.
  - now rewrite map_id.
  - rewrite IH, map_map. reflexivity.
Qed.

Lemma seq_logits_length (m : Transformer.t) (x : mat) :
  length (Transformer.seq_logits m x) = length x.
Proof. unfold Transformer.seq_logits. now rewrite !length_map, chain_length. Qed.


(** *** The whole model *)

Lemma nth_map_default {A B : Type} (f : A -> B) (l : list A) (n : nat) (d : B) (d' : A) :
  f d' = d -> nth n (map f l) d = f (nth n l d').
Proof. intros <-. apply map_nth. Qed.

Lemma seq_logits_nil (m : Transformer.t) : Transformer.seq_logits m [] = [].
Proof.
  apply length_zero_iff_nil. now rewrite seq_logits_length.
Qed.

Lemma embedding_raise (w : mat) (i : Z) (e : exn) :
  Embedding.forward w i = Raise e -> e = IndexError.
Proof.
  unfold Embedding.forward.
  destruct (_ && _)%bool; [discriminate|]. now intros [= <-].
Qed.

Lemma cross_entropy_raise (input : mat) (target : list Z) (e : exn) :
  cross_entropy input target = Raise e -> e = ValueError \/ e = IndexError.
Proof.
  unfold cross_entropy.
  destruct (negb _); [intros [= <-]; now left|].
  destruct (mapM _ _) as [terms|e'] eqn:E; cbn [bind].
  - destruct (keep terms); discriminate.
  - intros [= <-]. apply mapM_raise in E as ([x t] & _ & E).
    unfold nll in E. cbn [fst snd] in E.
    destruct (t =? -100)%Z; [discriminate|].
    destruct (_ && _)%bool; [discriminate|].
    injection E as <-. now right.
Qed.

(** What a successful call has computed. *)
Lemma forward_inv (m : Transformer.t) (idx : LongTensor) (tg : option LongTensor)
      (logits : list mat) (loss : option scalar) :
  Transformer.forward m idx tg = Ok (logits, loss) ->
  (Z.of_nat (size1 idx) <= ModelArgs.max_seq_len (Transformer.config m))%Z /\
  exists pos_emb tok_emb,
    mapM (Embedding.forward (Transformer.wpe m)) (map Z.of_nat (seq 0 (size1 idx)))
    = Ok pos_emb /\
    mapM (mapM (Embedding.forward (Transformer.wte m))) (rows idx) = Ok tok_emb /\
    logits = map (fun tok => Transformer.seq_logits m (map2 vadd tok pos_emb)) tok_emb /\
    match tg with
    | None => loss = None
    | Some t =>
        exists l, cross_entropy (concat logits) (concat (rows t)) = Ok l /\
                  loss = Some l
    end.
Proof.
  unfold Transformer.forward.
  destruct (Z.leb_spec (Z.of_nat (size1 idx))
                       (ModelArgs.max_seq_len (Transformer.config m))) as [HT|HT];
    cbn [negb]; [|discriminate].
  destruct (mapM _ (map Z.of_nat _)) as [pos_emb|] eqn:Ep; cbn [bind]; [|discriminate].
  destruct (mapM (mapM _) _) as [tok_emb|] eqn:Et; cbn [bind]; [|discriminate].
  rewrite blocks_map, !map_map.
  intros H. split; [exact HT|]. exists pos_emb, tok_emb.
  split; [reflexivity|]. split; [reflexivity|].
  destruct tg as [t|].
  - destruct (cross_entropy _ _) as [l|] eqn:El; cbn [bind] in H; [|discriminate].
    injection H as <- <-. split; [reflexivity|]. exists l. split; [exact El|reflexivity].
  - injection H as <- <-. split; reflexivity.
Qed.

Lemma forward_row (m : Transformer.t) (idx : LongTensor) (tg : option LongTensor)
      (logits : list mat) (loss : option scalar) :
  Transformer.forward m idx tg = Ok (logits, loss) ->
  exists pos_emb,
    mapM (Embedding.forward (Transformer.wpe m)) (map Z.of_nat (seq 0 (size1 idx)))
    = Ok pos_emb /\
    (length pos_emb
     <= Z.to_nat (ModelArgs.max_seq_len (Transformer.config m)))%nat /\
    forall b, exists tok,
      mapM (Embedding.forward (Transformer.wte m)) (nth b (rows idx) []) = Ok tok /\
      nth b logits [] = Transformer.seq_logits m (map2 vadd tok pos_emb).
Proof.
  intros H. apply forward_inv in H as (HT & pos_emb & tok_emb & Ep & Et & -> & _).
  exists pos_emb. split; [exact Ep|]. split.
  - rewrite (mapM_length _ _ _ Ep), length_map, length_seq. lia.
  - intros b. exists (nth b tok_emb []). split.
    + apply (mapM_nth _ _ _ [] [] Et). reflexivity.
    + apply (nth_map_default
               (fun tok => Transformer.seq_logits m (map2 vadd tok pos_emb))).
      cbn [map2]. apply seq_logits_nil.
Qed.

(** *** Success and shapes *)

Lemma embedding_ok (w : mat) (i : Z) :
  (0 <= i < Z.of_nat (length w))%Z ->
  Embedding.forward w i = Ok (nth (Z.to_nat i) w []).
Proof.
  intros [H0 H1]. unfold Embedding.forward.
  destruct (Z.leb_spec 0 i); [|lia].
  destruct (Z.ltb_spec i (Z.of_nat (length w))); [|lia]. reflexivity.
Qed.

Lemma embedding_row_ok (w : mat) (row : list Z) :
  Forall (fun id => (0 <= id < Z.of_nat (length w))%Z) row ->
  exists tok, mapM (Embedding.forward w) row = Ok tok.
Proof.
  intros H. apply mapM_ok. eapply List.Forall_impl; [|exact H].
  intros id Hid. cbn beta. rewrite embedding_ok by assumption. eauto.
Qed.

Lemma positions_ok (w : mat) (T : nat) :
  (T <= length w)%nat ->
  exists pos, mapM (Embedding.forward w) (map Z.of_nat (seq 0 T)) = Ok pos.
Proof.
  intros H. apply embedding_row_ok. apply List.Forall_forall. intros p Hp.
  apply in_map_iff in Hp as (k & <- & Hk). apply in_seq in Hk. lia.
Qed.




Lemma forward_logits_unique (m : Transformer.t) (idx : LongTensor)
      (tg tg' : option LongTensor) (l l' : list mat) (s s' : option scalar) :
  Transformer.forward m idx tg = Ok (l, s) ->
  Transformer.forward m idx tg' = Ok (l', s') -> l = l'.
Proof.
  intros H H'.
  apply forward_inv in H as (_ & pos & tok & Ep & Et & -> & _).
  apply forward_inv in H' as (_ & pos' & tok' & Ep' & Et' & -> & _).
  rewrite Ep in Ep'. injection Ep' as <-.
  rewrite Et in Et'. injection Et' as <-. reflexivity.
Qed.



(** C3: a batch longer than [max_seq_len] makes [forward] fail on its
    assertion, so nothing is returned for a truncated input; for a batch
    within the limit the assertion error cannot occur, and a call that
    returns has logits for every position of every sequence. *)
Theorem forward_rejects_long_input
        (m : Transformer.t) (idx : LongTensor) (tg : option LongTensor) :
  ((ModelArgs.max_seq_len (Transformer.config m) < Z.of_nat (size1 idx))%Z ->
   Transformer.forward m idx tg = Raise AssertionError) /\
  ((Z.of_nat (size1 idx) <= ModelArgs.max_seq_len (Transformer.config m))%Z ->
   Transformer.forward m idx tg <> Raise AssertionError) /\
  (forall logits loss,
     Transformer.forward m idx tg = Ok (logits, loss) ->
     (Z.of_nat (size1 idx) <= ModelArgs.max_seq_len (Transformer.config m))%Z /\
     length logits = length (rows idx) /\
     forall b, (length (nth b (rows idx) []) <= size1 idx)%nat ->
               length (nth b logits []) = length (nth b (rows idx) [])).
Proof.
  split; [|split].
  - intros HT. unfold Transformer.forward.
    destruct (Z.leb_spec (Z.of_nat (size1 idx))
                         (ModelArgs.max_seq_len (Transformer.config m))); [lia|].
    reflexivity.
  - intros HT. unfold Transformer.forward.
    destruct (Z.leb_spec (Z.of_nat (size1 idx))
                         (ModelArgs.max_seq_len (Transformer.config m))); [|lia].
    cbn [negb].
    destruct (mapM _ (map Z.of_nat _)) as [pos_emb|e] eqn:Ep; cbn [bind].
    2:{ apply mapM_raise in Ep as (a & _ & Ea). apply embedding_raise in Ea.
        subst e. discriminate. }
    destruct (mapM (mapM _) _) as [tok_emb|e] eqn:Et; cbn [bind].
    2:{ apply mapM_raise in Et as (r & _ & Er).
        apply mapM_raise in Er as (a & _ & Ea). apply embedding_raise in Ea.
        subst e. discriminate. }
    destruct tg as [t|]; [|discriminate].
    destruct (cross_entropy _ _) as [l|e] eqn:El; cbn [bind]; [discriminate|].
    apply cross_entropy_raise in El as [->| ->]; discriminate.
  - intros logits loss H. pose proof (forward_row _ _ _ _ _ H) as (pos & Ep & _ & Hrow).
    apply forward_inv in H as (HT & pos' & tok_emb & Ep' & Et & -> & _).
    split; [exact HT|]. split.
    + now rewrite length_map, (mapM_length _ _ _ Et).
    + intros b Hb. destruct (Hrow b) as (tok & Etok & ->).
      rewrite seq_logits_length, map2_length, (mapM_length _ _ _ Etok),
        (mapM_length _ _ _ Ep), length_map, length_seq.
      lia.
Qed.

(** *** The loss *)








Lemma concat_length_uniform {A : Type} (T : nat) (ls : list (list A)) :
  Forall (fun l => length l = T) ls -> length (concat ls) = (length ls * T)%nat.
Proof.
  induction 1 as [|l ls Hl _ IH]; cbn; [reflexivity|].
  rewrite length_app, IH, Hl. reflexivity.
Qed.






End ForwardProofs.

Module ImporterProofs.
Import Importer.
Local Open Scope string_scope.

Example endswith_examples :
  endswith "transformer.h.0.attn.c_attn.weight" "attn.c_attn.weight" = true /\
  endswith "transformer.h.0.attn.bias" ".attn.bias" = true /\
  endswith "transformer.h.0.attn.c_attn.bias" ".attn.bias" = false /\
  is_transposed "transformer.h.11.mlp.c_proj.weight" = true /\
  is_transposed "transformer.h.11.mlp.c_proj.bias" = false /\
  is_transposed "transformer.wte.weight" = false /\
  is_transposed "lm_head.weight" = false.
Proof. repeat split; reflexivity. Qed.

Lemma t_small (v : tensor) :
  (length (shape v) <= 2)%nat ->
  t v = Ok (match shape v with
            | [r; c] => mkT [c; r] (transpose_data r c (data v))
            | _ => v
            end).
Proof.
  unfold t. destruct (shape v) as [|r [|c [|? ?]]]; cbn; try reflexivity; lia.
Qed.

Lemma t_large (v : tensor) :
  (2 < length (shape v))%nat -> t v = Raise RuntimeError.
Proof.
  unfold t. destruct (shape v) as [|r [|c [|? ?]]]; cbn; try reflexivity; lia.
Qed.

(** One step of the loop succeeds exactly when the model has the name and
    the tensor fits; it then stores the converted tensor. *)
Lemma copy_one_fits (sd : gmap string tensor) (k : string) (v dst : tensor) :
  sd !! k = Some dst -> fits k v dst ->
  copy_one sd (k, v) = Ok (<[k := converted k v]> sd).
Proof.
  intros Hk Hf. unfold copy_one, fits, converted in *. rewrite Hk.
  destruct (is_transposed k).
  - destruct Hf as [Hs Hd]. destruct (decide _); [|contradiction].
    rewrite (t_small v Hd). reflexivity.
  - destruct (decide _); [reflexivity|contradiction].
Qed.

Lemma copy_one_inv (sd sd' : gmap string tensor) (k : string) (v : tensor) :
  copy_one sd (k, v) = Ok sd' ->
  exists dst, sd !! k = Some dst /\ fits k v dst /\ sd' = <[k := converted k v]> sd.
Proof.
  unfold copy_one, fits, converted.
  destruct (sd !! k) as [dst|]; [|destruct (is_transposed k); discriminate].
  destruct (is_transposed k).
  - destruct (decide _) as [Hs|]; [|discriminate].
    destruct (Nat.le_gt_cases (length (shape v)) 2) as [Hd|Hd].
    + rewrite (t_small v Hd). cbn [bind]. intros [= <-]. eauto.
    + rewrite (t_large v Hd). discriminate.
  - destruct (decide _) as [Hs|]; [|discriminate]. intros [= <-]. eauto.
Qed.

Lemma copy_loop_ok (items : list (string * tensor)) (sd : gmap string tensor) :
  List.NoDup (map fst items) ->
  (forall k v, In (k, v) items -> exists dst, sd !! k = Some dst /\ fits k v dst) ->
  exists sd',
    copy_loop items sd = (sd', None) /\
    (forall k v, In (k, v) items -> sd' !! k = Some (converted k v)) /\
    (forall k, ~ In k (map fst items) -> sd' !! k = sd !! k).
Proof.
  revert sd. induction items as [|[k v] rest IH]; intros sd Hnd Hfit.
  - exists sd. cbn. split; [reflexivity|]. split; [intros ? ? []|reflexivity].
  - cbn [map fst] in Hnd. apply List.NoDup_cons_iff in Hnd as [Hk Hnd].
    destruct (Hfit k v) as (dst & Hdst & Hf); [now left|].
    cbn [copy_loop]. rewrite (copy_one_fits sd k v dst Hdst Hf).
    destruct (IH (<[k := converted k v]> sd) Hnd) as (sd' & E & Hin & Hout).
    { intros k' v' Hin'. destruct (Hfit k' v') as (dst' & Hdst' & Hf'); [now right|].
      exists dst'. split; [|exact Hf'].
      rewrite lookup_insert_ne; [exact Hdst'|].
      intros ->. apply Hk. apply (in_map fst) in Hin'. exact Hin'. }
    exists sd'. split; [exact E|]. split.
    + intros k' v' [[= <- <-]|Hin'].
      * rewrite (Hout k Hk). apply lookup_insert_eq.
      * now apply Hin.
    + intros k' Hk'. cbn [map fst In] in Hk'.
      rewrite Hout by tauto. apply lookup_insert_ne. tauto.
Qed.

Lemma copy_loop_inv (items : list (string * tensor)) (sd sd' : gmap string tensor) :
  List.NoDup (map fst items) ->
  copy_loop items sd = (sd', None) ->
  forall k v, In (k, v) items -> exists dst, sd !! k = Some dst /\ fits k v dst.
Proof.
  revert sd. induction items as [|[k v] rest IH]; intros sd Hnd E k' v' Hin;
    [destruct Hin|].
  cbn [map fst] in Hnd. apply List.NoDup_cons_iff in Hnd as [Hk Hnd].
  cbn [copy_loop] in E.
  destruct (copy_one sd (k, v)) as [sd1|e] eqn:E1; [|discriminate].
  apply copy_one_inv in E1 as (dst & Hdst & Hf & ->).
  destruct Hin as [[= <- <-]|Hin]; [eauto|].
  destruct (IH _ Hnd E k' v' Hin) as (dst' & Hdst' & Hf').
  exists dst'. split; [|exact Hf'].
  rewrite lookup_insert_ne in Hdst'; [exact Hdst'|].
  intros ->. apply Hk. apply (in_map fst) in Hin. exact Hin.
Qed.

(** The exceptions of the loop. *)
Lemma copy_loop_raises (items : list (string * tensor)) (sd sd' : gmap string tensor)
      (e : exn) :
  copy_loop items sd = (sd', Some e) ->
  e = KeyError \/ e = AssertionError \/ e = RuntimeError.
Proof.
  revert sd. induction items as [|[k v] rest IH]; intros sd; cbn [copy_loop];
    [discriminate|].
  destruct (copy_one sd (k, v)) as [sd1|e1] eqn:E1; [apply IH|].
  intros [= _ <-]. unfold copy_one in E1.
  destruct (is_transposed k), (sd !! k) as [dst|]; try (injection E1 as <-; tauto).
  - destruct (decide _); [|injection E1 as <-; tauto].
    unfold t in E1. destruct (shape v) as [|r [|c [|? ?]]]; cbn in E1;
      try discriminate. injection E1 as <-. tauto.
  - destruct (decide _); [discriminate|injection E1 as <-; tauto].
Qed.

Lemma in_fst_filter {A B : Type} (f : A * B -> bool) (l : list (A * B)) (k : A) :
  In k (map fst (List.filter f l)) -> In k (map fst l).
Proof.
  intros H. apply in_map_iff in H as (kv & <- & Hkv).
  apply filter_In in Hkv as [Hkv _]. now apply in_map.
Qed.

Lemma NoDup_fst_filter {A B : Type} (f : A * B -> bool) (l : list (A * B)) :
  List.NoDup (map fst l) -> List.NoDup (map fst (List.filter f l)).
Proof.
  induction l as [|kv l IH]; cbn; [trivial|].
  intros Hnd. apply List.NoDup_cons_iff in Hnd as [Hk Hnd].
  destruct (f kv); [|now apply IH].
  cbn. apply List.NoDup_cons_iff. split; [|now apply IH].
  intros Hin. apply Hk. now apply in_fst_filter in Hin.
Qed.

Lemma NoDup_items_hf (sd_hf : list (string * tensor)) :
  List.NoDup (map fst sd_hf) -> List.NoDup (map fst (sd_items_hf sd_hf)).
Proof. intros H. unfold sd_items_hf. now do 2 apply NoDup_fst_filter. Qed.

(** *** The transpose *)

Lemma nth_concat_uniform {A : Type} (r : nat) (ls : list (list A)) (j i : nat) (d : A) :
  Forall (fun l => length l = r) ls -> (i < r)%nat ->
  nth (j * r + i) (concat ls) d = nth i (nth j ls []) d.
Proof.
  intros Hls Hi. revert j. induction Hls as [|l ls Hl _ IH]; intros j.
  - cbn [concat]. destruct (j * r + i)%nat, j, i; reflexivity.
  - destruct j as [|j]; cbn [concat nth].
    + cbn. apply app_nth1. lia.
    + rewrite app_nth2 by lia. rewrite <- IH. f_equal. lia.
Qed.

Lemma nth_map_default_seq {A : Type} (f : nat -> list A) (n i : nat) :
  (i < n)%nat -> nth i (map f (seq 0 n)) [] = f i.
Proof.
  intros Hi. rewrite (nth_indep _ [] (f 0%nat)) by (now rewrite length_map, length_seq).
  rewrite map_nth, seq_nth by assumption. reflexivity.
Qed.

(** Entry [(i, j)] of the transpose is entry [(j, i)] of the matrix. *)
Lemma transpose_entry (r c : nat) (d : list R) (i j : nat) :
  (i < c)%nat -> (j < r)%nat ->
  at2 (mkT [c; r] (transpose_data r c d)) i j = at2 (mkT [r; c] d) j i.
Proof.
  intros Hi Hj. unfold at2, transpose_data. cbn [shape data nth].
  rewrite (nth_concat_uniform r).
  - rewrite (nth_map_default_seq (fun j0 => map (fun i0 => nth (i0 * c + j0) d 0%R) (seq 0 r)) c i)
      by assumption.
    rewrite (nth_indep _ 0%R (nth (0 * c + i) d 0%R))
      by (rewrite length_map, length_seq; exact Hj).
    rewrite (map_nth (fun i0 => nth (i0 * c + i) d 0%R)), seq_nth by assumption.
    reflexivity.
  - apply List.Forall_forall. intros l Hl. apply in_map_iff in Hl as (j0 & <- & _).
    now rewrite length_map, length_seq.
  - exact Hj.
Qed.

(** *** The import as a whole *)

Section WholeImport.
Variable new_model : ModelArgs.t -> gmap string tensor.
Variable hf_pretrained : string -> list (string * tensor).
Variable model_type : string.
Variable config : ModelArgs.t.
Variable h : heap.
Hypothesis Hconfig : config_args model_type = Some config.
Hypothesis Hdict : List.NoDup (map fst (hf_pretrained model_type)).

Let sd := new_model config.
Let items := sd_items_hf (hf_pretrained model_type).

Lemma import_succeeds :
  length items = length (sd_keys sd) ->
  (forall k v, In (k, v) items -> exists dst, sd !! k = Some dst /\ fits k v dst) ->
  exists sd',
    from_pretrained new_model hf_pretrained model_type h
    = (Ok (fresh (dom h)), <[fresh (dom h) := sd']> h) /\
    (forall k v, In (k, v) items -> sd' !! k = Some (converted k v)) /\
    (forall k, ~ In k (map fst items) -> sd' !! k = sd !! k).
Proof.
  intros Hcount Hfit.
  destruct (copy_loop_ok items sd (NoDup_items_hf _ Hdict) Hfit)
    as (sd' & E & Hin & Hout).
  exists sd'. split; [|split; assumption].
  unfold from_pretrained. rewrite Hconfig. fold sd items.
  rewrite Hcount, Nat.eqb_refl. cbn [negb]. rewrite E.
  cbv beta iota zeta. now rewrite insert_insert_eq.
Qed.

Lemma import_count_mismatch :
  length items <> length (sd_keys sd) ->
  from_pretrained new_model hf_pretrained model_type h
  = (Raise AssertionError, <[fresh (dom h) := sd]> h).
Proof.
  intros Hcount. unfold from_pretrained. rewrite Hconfig. fold sd items.
  destruct (Nat.eqb_spec (length items) (length (sd_keys sd))); [contradiction|].
  reflexivity.
Qed.

Lemma import_unfit :
  (exists k v, In (k, v) items /\ forall dst, sd !! k = Some dst -> ~ fits k v dst) ->
  exists e, fst (from_pretrained new_model hf_pretrained model_type h) = Raise e.
Proof.
  intros (k & v & Hin & Hunfit).
  unfold from_pretrained. rewrite Hconfig. fold sd items.
  destruct (negb _); [eauto|].
  destruct (copy_loop items sd) as [sd' [e|]] eqn:E; [eauto|].
  exfalso.
  destruct (copy_loop_inv items sd sd' (NoDup_items_hf _ Hdict) E k v Hin)
    as (dst & Hdst & Hf).
  exact (Hunfit dst Hdst Hf).
Qed.
End WholeImport.


Lemma import_returns_fresh (new_model : ModelArgs.t -> gmap string tensor)
      (hf_pretrained : string -> list (string * tensor))
      (model_type : string) (h : heap) (a : nat) :
  fst (from_pretrained new_model hf_pretrained model_type h) = Ok a ->
  a = fresh (dom h).
Proof.
  unfold from_pretrained.
  destruct (config_args model_type) as [config|]; [|discriminate].
  destruct (negb _); [discriminate|].
  destruct (copy_loop _ _) as [sd' [e|]]; cbn [fst]; [discriminate|].
  now intros [= <-].
Qed.

Lemma converted_entry (k : string) (v : tensor) (r c : nat) :
  is_transposed k = true -> shape v = [r; c] ->
  shape (converted k v) = [c; r] /\
  forall i j, (i < c)%nat -> (j < r)%nat -> at2 (converted k v) i j = at2 v j i.
Proof.
  intros Hk Hs. unfold converted. rewrite Hk, Hs. split; [reflexivity|].
  intros i j Hi Hj. rewrite (transpose_entry r c (data v) i j Hi Hj).
  unfold at2. now rewrite Hs.
Qed.

Lemma is_transposed_iff (k : string) :
  is_transposed k = true <->
  endswith k "attn.c_attn.weight" = true \/ endswith k "attn.c_proj.weight" = true \/
  endswith k "mlp.c_fc.weight" = true \/ endswith k "mlp.c_proj.weight" = true.
Proof.
  unfold is_transposed, transposed. cbn [existsb].
  rewrite !orb_true_iff. intuition discriminate.
Qed.

(** C6: when every name of the checkpoint (mask buffers aside) is a name
    of the model and its tensor fits under the transpose rule, the import
    returns the model with every such name holding the checkpoint tensor:
    transposed for the names ending in one of the four projection weights
    (entry (i, j) of the model is entry (j, i) of the checkpoint), as it is
    for every other name; names that are not in the checkpoint keep their
    value.  The import fails when the numbers of names differ, and when
    some tensor does not fit. *)
Theorem import_copies_with_transpose
        (new_model : ModelArgs.t -> gmap string tensor)
        (hf_pretrained : string -> list (string * tensor))
        (model_type : string) (config : ModelArgs.t) (h : heap) :
  config_args model_type = Some config ->
  List.NoDup (map fst (hf_pretrained model_type)) ->
  let sd := new_model config in
  let items := sd_items_hf (hf_pretrained model_type) in
  (length items = length (sd_keys sd) ->
   (forall k v, In (k, v) items -> exists dst, sd !! k = Some dst /\ fits k v dst) ->
   exists sd',
     from_pretrained new_model hf_pretrained model_type h
     = (Ok (fresh (dom h)), <[fresh (dom h) := sd']> h) /\
     (forall k v, In (k, v) items -> sd' !! k = Some (converted k v)) /\
     (forall k, ~ In k (map fst items) -> sd' !! k = sd !! k)) /\
  (forall k v, is_transposed k = false -> converted k v = v) /\
  (forall k v r c,
     is_transposed k = true -> shape v = [r; c] ->
     shape (converted k v) = [c; r] /\
     forall i j, (i < c)%nat -> (j < r)%nat -> at2 (converted k v) i j = at2 v j i) /\
  (forall k,
     is_transposed k = true <->
     endswith k "attn.c_attn.weight" = true \/ endswith k "attn.c_proj.weight" = true \/
     endswith k "mlp.c_fc.weight" = true \/ endswith k "mlp.c_proj.weight" = true) /\
  (length items <> length (sd_keys sd) ->
   fst (from_pretrained new_model hf_pretrained model_type h) = Raise AssertionError) /\
  ((exists k v, In (k, v) items /\ forall dst, sd !! k = Some dst -> ~ fits k v dst) ->
   exists e, fst (from_pretrained new_model hf_pretrained model_type h) = Raise e).
Proof.
  intros Hconfig Hdict sd items.
  split; [exact (import_succeeds new_model hf_pretrained model_type config h Hconfig Hdict)|].
  split; [intros k v Hk; unfold converted; now rewrite Hk|].
  split; [exact converted_entry|].
  split; [exact is_transposed_iff|].
  split.
  - intros Hcount.
    now rewrite (import_count_mismatch new_model hf_pretrained model_type config h Hconfig Hcount).
  - exact (import_unfit new_model hf_pretrained model_type config h Hconfig Hdict).
Qed.


End ImporterProofs.

Module FeedForwardProofs.
Import TensorLemmas.
Local Open Scope R_scope.

Lemma nth_map2 {A B C : Type} (f : A -> B -> C) (l : list A) (l' : list B)
      (i : nat) (d : A) (d' : B) (d0 : C) :
  (i < length l)%nat -> (i < length l')%nat ->
  nth i (map2 f l l') d0 = f (nth i l d) (nth i l' d').
Proof.
  revert l l'. induction i as [|i IH]; intros [|a l] [|b l'] H H'; cbn in *;
    try lia; [reflexivity|].
  apply IH; lia.
Qed.

Lemma map2_by_index {A B C : Type} (f : A -> B -> C) (l : list A) (l' : list B)
      (n : nat) (d : A) (d' : B) :
  length l = n -> length l' = n ->
  map2 f l l' = map (fun i => f (nth i l d) (nth i l' d')) (seq 0 n).
Proof.
  intros Hl Hl'. apply (nth_ext _ _ (f d d') (f d d')).
  - rewrite map2_length, length_map, length_seq. lia.
  - intros i Hi. rewrite map2_length in Hi.
    rewrite (nth_map2 f l l' i d d') by lia.
    set (g := fun i => f (nth i l d) (nth i l' d')).
    rewrite (nth_indep _ (f d d') (g 0%nat)) by (rewrite length_map, length_seq; lia).
    rewrite (map_nth g), seq_nth by lia. reflexivity.
Qed.

Lemma dot_by_index (n : nat) (u v : list R) :
  length u = n -> length v = n ->
  dot u v = rsum (map (fun i => nth i u 0 * nth i v 0) (seq 0 n)).
Proof.
  intros Hu Hv. unfold dot. now rewrite (map2_by_index Rmult u v n 0 0).
Qed.

(** A linear layer of the right shape is the linear map of the
    specification. *)
Lemma linear_by_index (out inn : nat) (l : Linear.t) (b x : list R) :
  Linear.shaped out inn l -> Linear.bias l = Some b -> length x = inn ->
  Linear.forward l x = linear_spec (Linear.weight l) b out inn x.
Proof.
  intros (HW & Hrows & Hb) Eb Hx. rewrite Eb in Hb.
  unfold Linear.forward, linear_spec, vadd. rewrite Eb.
  rewrite (map2_by_index Rplus _ b out 0 0) by (rewrite ?length_map; assumption).
  apply map_ext_in. intros o Ho. apply in_seq in Ho. f_equal.
  rewrite (nth_indep _ 0 (dot x [])) by (rewrite length_map; lia).
  rewrite (map_nth (dot x)). apply dot_by_index; [assumption|].
  rewrite List.Forall_forall in Hrows. apply Hrows, nth_In. lia.
Qed.

Lemma linear_spec_length (W : list (list R)) (b : list R) (out inn : nat) (x : list R) :
  length (linear_spec W b out inn x) = out.
Proof. unfold linear_spec. now rewrite length_map, length_seq. Qed.

Lemma block_init_mlp (config : ModelArgs.t) (w : TransformerBlock.fresh)
      (b : TransformerBlock.t) :
  TransformerBlock.init config w = Ok b ->
  FeedForward.n_embd (TransformerBlock.mlp b) = ModelArgs.n_embd config /\
  FeedForward.hidden_dim (TransformerBlock.mlp b) = (4 * ModelArgs.n_embd config)%Z /\
  FeedForward.c_fc (TransformerBlock.mlp b) = TransformerBlock.f_c_fc w /\
  FeedForward.c_proj (TransformerBlock.mlp b) = TransformerBlock.f_mlp_c_proj w.
Proof.
  unfold TransformerBlock.init.
  destruct (ModelArgs.n_heads config =? 0)%Z; [discriminate|].
  destruct (check_size (ModelArgs.n_embd config)); cbn [bind]; [|discriminate].
  destruct (CausalSelfAttention.init _ _ _); cbn [bind]; [|discriminate].
  unfold FeedForward.init.
  destruct (check_size (ModelArgs.n_embd config)); cbn [bind]; [|discriminate].
  destruct (check_size (4 * ModelArgs.n_embd config)); cbn [bind]; [|discriminate].
  intros [= <-]. cbn. repeat split; reflexivity.
Qed.

(** C8: on an input with rows of width [E], [FeedForward] is the linear
    expansion to the hidden width, the tanh approximation of GELU on every
    entry, and the linear contraction back to [E]; only the two linear
    layers enter the result, and [TransformerBlock] builds it with hidden
    width [4 * E]. *)
Theorem feed_forward_contract (f : FeedForward.t) (b1 b2 : list R) (x : list (list R)) :
  let E := Z.to_nat (FeedForward.n_embd f) in
  let Hd := Z.to_nat (FeedForward.hidden_dim f) in
  Linear.shaped Hd E (FeedForward.c_fc f) ->
  Linear.bias (FeedForward.c_fc f) = Some b1 ->
  Linear.shaped E Hd (FeedForward.c_proj f) ->
  Linear.bias (FeedForward.c_proj f) = Some b2 ->
  Forall (fun v => length v = E) x ->
  FeedForward.forward f x
  = feed_forward_spec E Hd (Linear.weight (FeedForward.c_fc f)) b1
                      (Linear.weight (FeedForward.c_proj f)) b2 x /\
  Forall (fun v => length v = Hd) (map (Linear.forward (FeedForward.c_fc f)) x) /\
  length (FeedForward.forward f x) = length x /\
  Forall (fun v => length v = E) (FeedForward.forward f x) /\
  (forall z, gelu_tanh z
             = 0.5 * z * (1 + tanh (sqrt (2 / PI) * (z + 0.044715 * z ^ 3)))) /\
  (forall config w b,
     TransformerBlock.init config w = Ok b ->
     FeedForward.n_embd (TransformerBlock.mlp b) = ModelArgs.n_embd config /\
     FeedForward.hidden_dim (TransformerBlock.mlp b) = (4 * ModelArgs.n_embd config)%Z /\
     FeedForward.c_fc (TransformerBlock.mlp b) = TransformerBlock.f_c_fc w /\
     FeedForward.c_proj (TransformerBlock.mlp b) = TransformerBlock.f_mlp_c_proj w).
Proof.
  intros E Hd H1 Eb1 H2 Eb2 Hx.
  assert (Heq : FeedForward.forward f x
                = feed_forward_spec E Hd (Linear.weight (FeedForward.c_fc f)) b1
                    (Linear.weight (FeedForward.c_proj f)) b2 x).
  { unfold FeedForward.forward, feed_forward_spec. rewrite !map_map.
    apply map_ext_in. intros v Hv.
    rewrite List.Forall_forall in Hx.
    rewrite (linear_by_index Hd E _ b1 v H1 Eb1 (Hx v Hv)).
    apply (linear_by_index E Hd _ b2); [assumption..|].
    now rewrite length_map, linear_spec_length. }
  split; [exact Heq|]. split; [|split; [|split; [|split]]].
  - apply List.Forall_forall. intros y Hy. apply in_map_iff in Hy as (v & <- & Hv).
    rewrite List.Forall_forall in Hx.
    rewrite (linear_by_index Hd E _ b1 v H1 Eb1 (Hx v Hv)). apply linear_spec_length.
  - unfold FeedForward.forward. now rewrite !length_map.
  - rewrite Heq. unfold feed_forward_spec. apply List.Forall_forall. intros y Hy.
    apply in_map_iff in Hy as (v & <- & _). apply linear_spec_length.
  - intros z. reflexivity.
  - exact block_init_mlp.
Qed.

End FeedForwardProofs.

Module Witnesses.
Import Examples.
Local Open Scope R_scope.






Lemma three_le_limit :
  (Z.of_nat (size1 batch1) <= ModelArgs.max_seq_len (Transformer.config tiny_model))%Z.
Proof. cbn. lia. Defined.



Lemma forward_rejects_long_input_witness :
  (ModelArgs.max_seq_len (Transformer.config tiny_model)
   < Z.of_nat (size1 too_long))%Z /\
  Transformer.forward tiny_model too_long None = Raise AssertionError /\
  (Z.of_nat (size1 batch1) <= ModelArgs.max_seq_len (Transformer.config tiny_model))%Z /\
  Transformer.forward tiny_model batch1 None <> Raise AssertionError.
Proof.
  assert (Hlong : (ModelArgs.max_seq_len (Transformer.config tiny_model)
                   < Z.of_nat (size1 too_long))%Z) by (cbn; lia).
  split; [exact Hlong|]. split.
  - exact (proj1 (ForwardProofs.forward_rejects_long_input tiny_model too_long None) Hlong).
  - split; [exact three_le_limit|].
    exact (proj1 (proj2 (ForwardProofs.forward_rejects_long_input tiny_model batch1 None))
             three_le_limit).
Defined.

Lemma attention_rows_sum_to_one_witness :
  CausalSelfAttention.bias tiny_attn
  = tril_ones (Z.to_nat (CausalSelfAttention.max_seq_len tiny_attn)) /\
  (length two_positions <= Z.to_nat (CausalSelfAttention.max_seq_len tiny_attn))%nat /\
  Forall (fun row => length row = 2%nat /\ rsum row = 1)
         (CausalSelfAttention.att tiny_attn 0 two_positions).
Proof.
  assert (Hm : CausalSelfAttention.bias tiny_attn
               = tril_ones (Z.to_nat (CausalSelfAttention.max_seq_len tiny_attn)))
    by reflexivity.
  assert (HL : (length two_positions
                <= Z.to_nat (CausalSelfAttention.max_seq_len tiny_attn))%nat)
    by (cbn; lia).
  split; [exact Hm|]. split; [exact HL|].
  exact (proj2 (AttentionProofs.attention_rows_sum_to_one tiny_attn 0 two_positions Hm HL)).
Defined.

Lemma feed_forward_contract_witness :
  Linear.shaped 8 2 (FeedForward.c_fc tiny_mlp) /\
  Linear.shaped 2 8 (FeedForward.c_proj tiny_mlp) /\
  Forall (fun v => length v = 2%nat) two_positions /\
  length (FeedForward.forward tiny_mlp two_positions) = 2%nat /\
  Forall (fun v => length v = 2%nat) (FeedForward.forward tiny_mlp two_positions).
Proof.
  assert (H1 : Linear.shaped 8 2 (FeedForward.c_fc tiny_mlp)).
  { unfold Linear.shaped. cbn. repeat split; repeat constructor. }
  assert (H2 : Linear.shaped 2 8 (FeedForward.c_proj tiny_mlp)).
  { unfold Linear.shaped. cbn. repeat split; repeat constructor. }
  assert (Hx : Forall (fun v => length v = 2%nat) two_positions)
    by (repeat constructor).
  split; [exact H1|]. split; [exact H2|]. split; [exact Hx|].
  destruct (FeedForwardProofs.feed_forward_contract tiny_mlp _ _ two_positions
              H1 eq_refl H2 eq_refl Hx) as (_ & _ & Hlen & Hrows & _).
  split; [exact Hlen | exact Hrows].
Defined.

Local Open Scope string_scope.

Lemma good_checkpoint_dict : List.NoDup (map fst (good_checkpoint "gpt2")).
Proof.
  cbn. repeat (apply List.NoDup_cons; [cbn; intuition discriminate|]).
  apply List.NoDup_nil.
Defined.

Lemma bad_checkpoint_dict : List.NoDup (map fst (bad_checkpoint "gpt2")).
Proof.
  cbn. repeat (apply List.NoDup_cons; [cbn; intuition discriminate|]).
  apply List.NoDup_nil.
Defined.

(** The loop on the checkpoint with the wrong output head stops with the
    projection weight already written. *)
Example loop_not_atomic :
  exists sd',
    Importer.copy_loop (Importer.sd_items_hf (bad_checkpoint "gpt2")) (small_model gpt2)
    = (sd', Some AssertionError) /\
    sd' !! "transformer.h.0.attn.c_attn.weight"
    = Some (Importer.mkT [3; 2]%nat [1; 4; 2; 5; 3; 6]%R) /\
    small_model gpt2 !! "transformer.h.0.attn.c_attn.weight"
    = Some (Importer.mkT [3; 2]%nat [0; 0; 0; 0; 0; 0]%R).
Proof. eexists. repeat split; vm_compute; reflexivity. Qed.

Lemma import_copies_with_transpose_witness :
  Importer.config_args "gpt2" = Some gpt2 /\
  List.NoDup (map fst (good_checkpoint "gpt2")) /\
  exists sd',
    Importer.from_pretrained small_model good_checkpoint "gpt2" callers_heap
    = (Ok (fresh (dom callers_heap)), <[fresh (dom callers_heap) := sd']> callers_heap) /\
    sd' !! "transformer.h.0.attn.c_attn.weight"
    = Some (Importer.mkT [3; 2]%nat [1; 4; 2; 5; 3; 6]%R) /\
    sd' !! "lm_head.weight" = Some (Importer.mkT [2; 3]%nat [7; 8; 9; 10; 11; 12]%R) /\
    sd' !! "transformer.h.0.attn.bias" = small_model gpt2 !! "transformer.h.0.attn.bias" /\
    length (Importer.sd_items_hf (short_checkpoint "gpt2"))
    <> length (Importer.sd_keys (small_model gpt2)) /\
    fst (Importer.from_pretrained small_model short_checkpoint "gpt2" callers_heap)
    = Raise AssertionError.
Proof.
  assert (Hshort : List.NoDup (map fst (short_checkpoint "gpt2"))).
  { cbn. apply List.NoDup_cons; [intros []|apply List.NoDup_nil]. }
  assert (Hcount : length (Importer.sd_items_hf (short_checkpoint "gpt2"))
                   <> length (Importer.sd_keys (small_model gpt2))).
  { vm_compute. discriminate. }
  pose proof (proj1 (proj2 (proj2 (proj2 (proj2
                (ImporterProofs.import_copies_with_transpose
                   small_model short_checkpoint "gpt2" gpt2 callers_heap
                   eq_refl Hshort))))) Hcount) as Hfail.
  split; [reflexivity|]. split; [exact good_checkpoint_dict|].
  destruct (proj1 (ImporterProofs.import_copies_with_transpose
                     small_model good_checkpoint "gpt2" gpt2 callers_heap
                     eq_refl good_checkpoint_dict))
    as (sd' & E & Hin & Hout).
  - vm_compute. reflexivity.
  - intros k v Hin. cbn in Hin.
    destruct Hin as [[= <- <-]|[[= <- <-]|[]]]; eexists;
      (split; [vm_compute; reflexivity|]); cbn; auto.
  - exists sd'. split; [exact E|]. split; [|split].
    + apply (Hin "transformer.h.0.attn.c_attn.weight"
                 (Importer.mkT [2; 3]%nat [1; 2; 3; 4; 5; 6]%R)).
      cbn. auto.
    + apply (Hin "lm_head.weight" (Importer.mkT [2; 3]%nat [7; 8; 9; 10; 11; 12]%R)).
      cbn. auto.
    + split; [|split; [exact Hcount|exact Hfail]].
      apply Hout. cbn. intuition discriminate.
Defined.


End Witnesses.

Module LoaderProofs.
Import Batcher BatcherProofs Loader.
Local Open Scope Z_scope.

Lemma py_slice_length {A : Type} (l : list A) (a b : Z) :
  0 <= a -> 0 <= b ->
  length (py_slice l a b)
  = Z.to_nat (Z.min b (Z.of_nat (length l)) - Z.min a (Z.of_nat (length l))).
Proof.
  intros Ha Hb. unfold py_slice, norm_index.
  destruct (Z.ltb_spec a 0); [lia|]. destruct (Z.ltb_spec b 0); [lia|].
  rewrite length_firstn, length_skipn. lia.
Qed.

(** X1: when fewer than [B*T + 1] tokens are left from the cursor and a
    batch has at least one token, [next_batch] fails in [view]: a stream
    shorter than one batch plus one makes every call fail. *)
Theorem next_batch_short_stream (d : DataLoaderLite) :
  0 <= current_position d ->
  1 <= BT d ->
  Z.of_nat (length (tokens d)) < current_position d + BT d + 1 ->
  next_batch d = Raise RuntimeError.
Proof.
  intros Hp HBT Hshort. unfold next_batch.
  set (buf := py_slice (tokens d) (current_position d) (current_position d + BT d + 1)).
  assert (Hbuf : (length buf < S (B d * T d))%nat).
  { subst buf. unfold BT in *. rewrite <- Nat2Z.inj_mul in *.
    rewrite py_slice_length by lia. lia. }
  unfold view2 at 1. rewrite py_slice_drop_last, length_firstn.
  destruct (Nat.eqb_spec (Nat.min (length buf - 1) (length buf)) (B d * T d));
    [|reflexivity].
  unfold BT in HBT. rewrite <- Nat2Z.inj_mul in HBT. lia.
Qed.

Lemma next_batch_short_stream_witness :
  0 <= current_position (init 2 3 (range 5)) /\
  1 <= BT (init 2 3 (range 5)) /\
  Z.of_nat (length (tokens (init 2 3 (range 5))))
  < current_position (init 2 3 (range 5)) + BT (init 2 3 (range 5)) + 1 /\
  next_batch (init 2 3 (range 5)) = Raise RuntimeError.
Proof.
  assert (H0 : 0 <= current_position (init 2 3 (range 5)))
    by (vm_compute; discriminate).
  assert (H1 : 1 <= BT (init 2 3 (range 5))) by (vm_compute; discriminate).
  assert (H2 : Z.of_nat (length (tokens (init 2 3 (range 5))))
               < current_position (init 2 3 (range 5)) + BT (init 2 3 (range 5)) + 1)
    by (vm_compute; reflexivity).
  split; [exact H0|]. split; [exact H1|]. split; [exact H2|].
  exact (next_batch_short_stream (init 2 3 (range 5)) H0 H1 H2).
Defined.

(** *** The cycle of the cursor *)

Lemma windows_bounds (d : DataLoaderLite) :
  1 <= BT d ->
  BT d * windows d <= Z.of_nat (length (tokens d)) - 1 < BT d * windows d + BT d.
Proof.
  intros HBT. unfold windows.
  pose proof (Z.div_mod (Z.of_nat (length (tokens d)) - 1) (BT d)) as Hdm.
  pose proof (Z.mod_pos_bound (Z.of_nat (length (tokens d)) - 1) (BT d)) as Hmod.
  lia.
Qed.

Lemma windows_pos (d : DataLoaderLite) :
  1 <= BT d -> BT d + 1 <= Z.of_nat (length (tokens d)) -> 1 <= windows d.
Proof.
  intros HBT HM. pose proof (windows_bounds d HBT) as Hb. nia.
Qed.

(** The cursor is  at a multiple [j] of [B*T]; the test of line 236 is true
    exactly for the last window. *)
Lemma wrap_test (d : DataLoaderLite) (j : Z) :
  1 <= BT d -> 0 <= j < windows d ->
  (j * BT d + BT d + (BT d + 1) >? Z.of_nat (length (tokens d)))
  = (j + 1 =? windows d).
Proof.
  intros HBT Hj. pose proof (windows_bounds d HBT) as Hb.
  destruct (Z.eqb_spec (j + 1) (windows d)) as [E|E];
    destruct (Z.gtb_spec (j * BT d + BT d + (BT d + 1)) (Z.of_nat (length (tokens d))));
    try reflexivity; exfalso; nia.
Qed.

Lemma window_cursor_ok (d : DataLoaderLite) (j : Z) :
  1 <= BT d -> 0 <= j < windows d -> current_position d = j * BT d -> cursor_ok d.
Proof.
  intros HBT Hj Hp. pose proof (windows_bounds d HBT) as Hb.
  unfold cursor_ok. rewrite Hp. nia.
Qed.

Lemma run_from (n : nat) :
  forall (d : DataLoaderLite) (j : Z),
    1 <= BT d -> 0 <= j < windows d -> current_position d = j * BT d ->
    exists d', run n d = Ok d' /\
      B d' = B d /\ T d' = T d /\ tokens d' = tokens d /\
      current_position d' = ((j + Z.of_nat n) mod windows d) * BT d.
Proof.
  induction n as [|n IH]; intros d j HBT Hj Hp.
  - exists d. cbn [run]. repeat split; try reflexivity.
    rewrite Z.add_0_r, Z.mod_small by lia. exact Hp.
  - pose proof (window_cursor_ok d j HBT Hj Hp) as Hok.
    cbn [run]. rewrite (next_batch_eq d Hok).
    set (d1 := mkLoader (B d) (T d) (tokens d) _).
    assert (HBT1 : BT d1 = BT d) by reflexivity.
    assert (Hw1 : windows d1 = windows d) by reflexivity.
    assert (Hp1 : current_position d1
                  = (if j + 1 =? windows d then 0 else j + 1) * BT d).
    { subst d1. cbn [current_position]. rewrite Hp, (wrap_test d j HBT Hj).
      destruct (j + 1 =? windows d); lia. }
    destruct (IH d1 (if j + 1 =? windows d then 0 else j + 1)) as (d' & E & HB & HT & Htk & Hp').
    { rewrite HBT1. exact HBT. }
    { rewrite Hw1. destruct (Z.eqb_spec (j + 1) (windows d)); lia. }
    { exact Hp1. }
    exists d'. split; [exact E|]. repeat split; try assumption.
    rewrite Hp', Hw1, HBT1. f_equal.
    destruct (Z.eqb_spec (j + 1) (windows d)) as [E1|E1].
    + replace (j + Z.of_nat (S n)) with (Z.of_nat n + 1 * windows d) by lia.
      rewrite Z.mod_add by lia. f_equal.
    + f_equal. lia.
Qed.

Lemma mod_succ (K n : Z) :
  0 < K -> 0 <= n ->
  (n + 1) mod K = if n mod K + 1 =? K then 0 else n mod K + 1.
Proof.
  intros HK Hn.
  pose proof (Z.div_mod n K ltac:(lia)) as Hdm.
  pose proof (Z.mod_pos_bound n K HK) as Hmod.
  destruct (Z.eqb_spec (n mod K + 1) K) as [E|E]; symmetry.
  - apply (Z.mod_unique_pos _ _ (n / K + 1)); lia.
  - apply (Z.mod_unique_pos _ _ (n / K)); lia.
Qed.

Lemma firstn_add {A : Type} (a b : nat) (l : list A) :
  firstn (a + b) l = firstn a l ++ firstn b (skipn a l).
Proof.
  revert l. induction a as [|a IH]; intros [|x l]; cbn; try reflexivity.
  - now rewrite firstn_nil.
  - now rewrite IH.
Qed.

(** X2: on a stream of at least [B*T + 1] tokens the loader cycles
    through [K = (M - 1) div (B*T)] windows: call [n + 1] returns the
    [B*T] tokens from position [(n mod K) * B*T] as inputs and those one
    further as targets; no window reaches beyond token [K * B*T], so the
    tokens after it are never returned. *)
Theorem nth_batch_window (b t : nat) (toks : list Z) (n : nat) :
  1 <= Z.of_nat b * Z.of_nat t ->
  Z.of_nat b * Z.of_nat t + 1 <= Z.of_nat (length toks) ->
  let K := windows (init b t toks) in
  let p := (Z.of_nat n mod K) * (Z.of_nat b * Z.of_nat t) in
  0 <= p /\
  p + Z.of_nat b * Z.of_nat t <= K * (Z.of_nat b * Z.of_nat t) /\
  K * (Z.of_nat b * Z.of_nat t) + 1 <= Z.of_nat (length toks) /\
  exists d d',
    run n (init b t toks) = Ok d /\
    current_position d = p /\
    next_batch d
    = Ok (reshape b t (firstn (b * t) (skipn (Z.to_nat p) toks)),
          reshape b t (firstn (b * t) (skipn (S (Z.to_nat p)) toks)), d') /\
    current_position d' = (Z.of_nat (S n) mod K) * (Z.of_nat b * Z.of_nat t).
Proof.
  intros HBT HM. cbv zeta.
  set (d0 := init b t toks).
  set (K := windows d0).
  set (bt := Z.of_nat b * Z.of_nat t) in *.
  set (p := (Z.of_nat n mod K) * bt).
  assert (HBT0 : 1 <= BT d0) by exact HBT.
  pose proof (windows_pos d0 HBT0 HM) as HK. fold K in HK.
  pose proof (windows_bounds d0 HBT0) as Hb. fold K in Hb.
  change (BT d0) with bt in Hb. change (length (tokens d0)) with (length toks) in Hb.
  pose proof (Z.mod_pos_bound (Z.of_nat n) K ltac:(lia)) as Hmod.
  split; [subst p; nia|]. split; [subst p; nia|]. split; [nia|].
  destruct (run_from n d0 0 HBT0 ltac:(fold K; lia) eq_refl)
    as (d & E & HB & HT & Htk & Hp).
  fold K in Hp. change (BT d0) with bt in Hp. rewrite Z.add_0_l in Hp. fold p in Hp.
  assert (Ed : d = mkLoader b t toks p).
  { destruct d as [b' t' toks' p']. cbn in HB, HT, Htk, Hp. now subst. }
  subst d.
  set (d := mkLoader b t toks p) in *.
  assert (Hok : cursor_ok d).
  { apply (window_cursor_ok d (Z.of_nat n mod K)); [exact HBT|exact Hmod|reflexivity]. }
  eexists d, _. split; [exact E|]. split; [reflexivity|].
  split; [exact (next_batch_eq d Hok)|].
  cbn [current_position d B T tokens].
  change (BT d) with bt. change (BT (mkLoader b t toks p)) with bt.
  pose proof (wrap_test d (Z.of_nat n mod K) HBT Hmod) as Hw.
  change (BT d) with bt in Hw. change (length (tokens d)) with (length toks) in Hw.
  change (windows d) with K in Hw. fold p in Hw.
  rewrite Hw, Nat2Z.inj_succ, <- Z.add_1_r, (mod_succ K (Z.of_nat n)) by lia.
  destruct (Z.of_nat n mod K + 1 =? K); [lia|]. subst p. lia.
Qed.

Lemma nth_batch_window_witness :
  1 <= Z.of_nat 2 * Z.of_nat 3 /\
  Z.of_nat 2 * Z.of_nat 3 + 1 <= Z.of_nat (length (range 1000)) /\
  windows (init 2 3 (range 1000)) = 166 /\
  exists d d',
    run 170 (init 2 3 (range 1000)) = Ok d /\
    current_position d = 24 /\
    next_batch d
    = Ok ([[24; 25; 26]; [27; 28; 29]], [[25; 26; 27]; [28; 29; 30]], d').
Proof.
  assert (H1 : 1 <= Z.of_nat 2 * Z.of_nat 3) by (vm_compute; discriminate).
  assert (H2 : Z.of_nat 2 * Z.of_nat 3 + 1 <= Z.of_nat (length (range 1000)))
    by (vm_compute; discriminate).
  split; [exact H1|]. split; [exact H2|]. split; [vm_compute; reflexivity|].
  destruct (nth_batch_window 2 3 (range 1000) 170 H1 H2)
    as (_ & _ & _ & d & d' & E & Hp & Enb & _).
  exists d, d'. split; [exact E|]. split; [exact Hp|]. exact Enb.
Defined.

Lemma windows_versus_quotient (M bt : Z) :
  1 <= bt -> 1 <= M ->
  (M - 1) / bt = if M mod bt =? 0 then M / bt - 1 else M / bt.
Proof.
  intros Hbt HM.
  pose proof (Z.div_mod M bt ltac:(lia)) as Hdm.
  pose proof (Z.mod_pos_bound M bt ltac:(lia)) as Hmod.
  destruct (Z.eqb_spec (M mod bt) 0) as [E|E]; symmetry.
  - apply (Z.div_unique_pos _ _ _ (bt - 1)); lia.
  - apply (Z.div_unique_pos _ _ _ (M mod bt - 1)); lia.
Qed.

(** X3: the constructor fails on the division of its message when
    [B * T = 0]; otherwise it announces [M div (B*T)] batches per epoch,
    while the cursor is back at zero after [(M - 1) div (B*T)] calls and
    not before, one call fewer than announced when [B*T] divides [M]. *)
Theorem announced_versus_actual (b t : nat) (toks : list Z) :
  (Z.of_nat b * Z.of_nat t = 0 -> construct b t toks = Raise ZeroDivisionError) /\
  (1 <= Z.of_nat b * Z.of_nat t ->
   Z.of_nat b * Z.of_nat t + 1 <= Z.of_nat (length toks) ->
   let bt := Z.of_nat b * Z.of_nat t in
   let M := Z.of_nat (length toks) in
   let K := windows (init b t toks) in
   construct b t toks = Ok (M / bt, init b t toks) /\
   K = (if M mod bt =? 0 then M / bt - 1 else M / bt) /\
   (exists d, run (Z.to_nat K) (init b t toks) = Ok d /\ current_position d = 0) /\
   (forall n, 0 < Z.of_nat n < K ->
      exists d, run n (init b t toks) = Ok d /\
                current_position d = Z.of_nat n * bt /\ current_position d <> 0)).
Proof.
  split.
  - intros H0. unfold construct, announced_batches. now rewrite H0.
  - intros HBT HM. cbv zeta.
    set (d0 := init b t toks).
    assert (HBT0 : 1 <= BT d0) by exact HBT.
    pose proof (windows_pos d0 HBT0 HM) as HK.
    split; [|split; [|split]].
    + unfold construct, announced_batches.
      destruct (Z.eqb_spec (Z.of_nat b * Z.of_nat t) 0); [lia|]. reflexivity.
    + unfold windows. apply windows_versus_quotient; [exact HBT|].
      cbn [d0 init tokens]. lia.
    + destruct (run_from (Z.to_nat (windows d0)) d0 0 HBT0 ltac:(lia) eq_refl)
        as (d & E & _ & _ & _ & Hp).
      exists d. split; [exact E|]. rewrite Hp, Z.add_0_l, Z2Nat.id by lia.
      rewrite Z.mod_same by lia. lia.
    + intros n Hn.
      destruct (run_from n d0 0 HBT0 ltac:(lia) eq_refl) as (d & E & _ & _ & _ & Hp).
      exists d. split; [exact E|].
      rewrite Z.add_0_l, Z.mod_small in Hp by lia.
      change (BT d0) with (Z.of_nat b * Z.of_nat t) in Hp.
      split; [exact Hp|]. rewrite Hp. nia.
Qed.

Lemma announced_versus_actual_witness :
  1 <= Z.of_nat 2 * Z.of_nat 3 /\
  Z.of_nat 2 * Z.of_nat 3 + 1 <= Z.of_nat (length (range 12)) /\
  construct 2 3 (range 12) = Ok (2, init 2 3 (range 12)) /\
  windows (init 2 3 (range 12)) = 1 /\
  (Z.of_nat 0 * Z.of_nat 3 = 0 /\ construct 0 3 (range 12) = Raise ZeroDivisionError).
Proof.
  assert (H1 : 1 <= Z.of_nat 2 * Z.of_nat 3) by (vm_compute; discriminate).
  assert (H2 : Z.of_nat 2 * Z.of_nat 3 + 1 <= Z.of_nat (length (range 12)))
    by (vm_compute; discriminate).
  assert (H0 : Z.of_nat 0 * Z.of_nat 3 = 0) by reflexivity.
  split; [exact H1|]. split; [exact H2|].
  destruct (proj2 (announced_versus_actual 2 3 (range 12)) H1 H2) as (Ec & EK & _ & _).
  split; [exact Ec|]. split; [exact EK|]. split; [exact H0|].
  exact (proj1 (announced_versus_actual 0 3 (range 12)) H0).
Defined.

(** X4: two calls in a row without a wrap return [2 * B*T] consecutive
    tokens of the stream: the inputs of the second batch continue the
    inputs of the first, and so do the targets. *)
Theorem consecutive_batches (d : DataLoaderLite) :
  0 <= current_position d ->
  current_position d + BT d + BT d + 1 <= Z.of_nat (length (tokens d)) ->
  let n := (B d * T d)%nat in
  let p := Z.to_nat (current_position d) in
  exists x y d1 x' y' d2,
    next_batch d = Ok (x, y, d1) /\
    next_batch d1 = Ok (x', y', d2) /\
    current_position d1 = current_position d + BT d /\
    concat x ++ concat x' = firstn (n + n) (skipn p (tokens d)) /\
    concat y ++ concat y' = firstn (n + n) (skipn (S p) (tokens d)).
Proof.
  intros Hp HM n p.
  assert (HBT : 0 <= BT d) by (unfold BT; lia).
  assert (Hok : cursor_ok d) by (split; lia).
  set (d1 := mkLoader (B d) (T d) (tokens d) (current_position d + BT d)).
  assert (Hok1 : cursor_ok d1).
  { split; cbn [d1 current_position tokens]; change (BT d1) with (BT d); lia. }
  assert (E1 : next_batch d = Ok (reshape (B d) (T d) (firstn n (skipn p (tokens d))),
                                  reshape (B d) (T d) (firstn n (skipn (S p) (tokens d))),
                                  d1)).
  { rewrite (next_batch_eq d Hok). subst d1.
    destruct (Z.gtb_spec (current_position d + BT d + (BT d + 1))
                         (Z.of_nat (length (tokens d)))); [lia|reflexivity]. }
  pose proof (next_batch_eq d1 Hok1) as E2.
  cbn [d1 B T tokens current_position] in E2.
  replace (Z.to_nat (current_position d + BT d)) with (n + p)%nat in E2
    by (unfold BT; subst n p; lia).
  eexists _, _, _, _, _, _. split; [exact E1|]. split; [exact E2|].
  split; [reflexivity|].
  assert (Hl : forall q, (q + n + n <= length (tokens d))%nat ->
             length (firstn n (skipn q (tokens d))) = n /\
             length (firstn n (skipn (n + q) (tokens d))) = n).
  { intros q Hq. split; apply window_length; lia. }
  assert (Hq : (S p + n + n <= length (tokens d))%nat)
    by (unfold BT in *; subst n p; lia).
  destruct (Hl p ltac:(lia)) as [Hx Hx']. destruct (Hl (S p) Hq) as [Hy Hy'].
  replace (S (n + p)) with (n + S p)%nat by lia.
  rewrite !concat_reshape by assumption.
  now rewrite !firstn_add, !skipn_skipn.
Qed.

Lemma consecutive_batches_witness :
  0 <= current_position (init 2 3 (range 1000)) /\
  current_position (init 2 3 (range 1000)) + BT (init 2 3 (range 1000))
  + BT (init 2 3 (range 1000)) + 1 <= Z.of_nat (length (tokens (init 2 3 (range 1000)))) /\
  exists x y d1 x' y' d2,
    next_batch (init 2 3 (range 1000)) = Ok (x, y, d1) /\
    next_batch d1 = Ok (x', y', d2) /\
    concat x ++ concat x' = firstn 12 (range 1000).
Proof.
  assert (H0 : 0 <= current_position (init 2 3 (range 1000)))
    by (vm_compute; discriminate).
  assert (H1 : current_position (init 2 3 (range 1000)) + BT (init 2 3 (range 1000))
               + BT (init 2 3 (range 1000)) + 1
               <= Z.of_nat (length (tokens (init 2 3 (range 1000)))))
    by (vm_compute; discriminate).
  split; [exact H0|]. split; [exact H1|].
  destruct (consecutive_batches (init 2 3 (range 1000)) H0 H1)
    as (x & y & d1 & x' & y' & d2 & E1 & E2 & _ & Hx & _).
  exists x, y, d1, x', y', d2. split; [exact E1|]. split; [exact E2|]. exact Hx.
Defined.

End LoaderProofs.

Module AttentionExtras.
Import TensorLemmas AttentionProofs ForwardProofs.
Local Open Scope R_scope.







Lemma att_dims (a : CausalSelfAttention.t) (h : nat)
      (x : list (list R)) :
  CausalSelfAttention.bias a
  = tril_ones (Z.to_nat (CausalSelfAttention.max_seq_len a)) ->
  (length x <= Z.to_nat (CausalSelfAttention.max_seq_len a))%nat ->
  length (CausalSelfAttention.att a h x) = length x /\
  Forall (fun row => length row = length x) (CausalSelfAttention.att a h x).
Proof.
  intros Hm HL. rewrite (att_rows a _ h x Hm HL). split.
  - now rewrite rows_from_length, split_head_length.
  - apply List.Forall_forall. intros row Hrow.
    apply rows_from_In in Hrow as (i & q & _ & _ & ->).
    now rewrite weight_row_length, split_head_length.
Qed.









End AttentionExtras.

Module ModelExtras.
Import TensorLemmas AttentionProofs ForwardProofs.
Local Open Scope R_scope.



Lemma mapM_raises {A B : Type} (f : A -> result B) (l : list A) (e0 : exn) :
  (forall a e, f a = Raise e -> e = e0) ->
  Exists (fun a => exists e, f a = Raise e) l ->
  mapM f l = Raise e0.
Proof.
  intros Hf Hex. induction l as [|a l IH]; [inversion Hex|].
  cbn [mapM]. destruct (f a) as [b|e] eqn:Ea; cbn [bind].
  - inversion Hex as [? ? [e He]|? ? Hex']; subst; [congruence|].
    now rewrite (IH Hex').
  - now rewrite (Hf a e Ea).
Qed.

Lemma embedding_out_of_range (w : list (list R)) (i : Z) :
  ~ (0 <= i < Z.of_nat (length w))%Z -> Embedding.forward w i = Raise IndexError.
Proof.
  intros H. unfold Embedding.forward.
  destruct (Z.leb_spec 0 i); cbn [andb]; [|reflexivity].
  destruct (Z.ltb_spec i (Z.of_nat (length w))); [lia|reflexivity].
Qed.

(** X8: a token outside of the vocabulary makes [forward] raise an
    [IndexError], with targets or without, however many tokens of the
    batch are valid. *)
Theorem forward_out_of_vocabulary
        (m : Transformer.t) (idx : LongTensor) (tg : option LongTensor) :
  Transformer.shaped m ->
  (Z.of_nat (size1 idx) <= ModelArgs.max_seq_len (Transformer.config m))%Z ->
  Exists (Exists (fun id =>
                    ~ (0 <= id < ModelArgs.vocab_size (Transformer.config m))%Z))
         (rows idx) ->
  Transformer.forward m idx tg = Raise IndexError.
Proof.
  intros (HV & HL & [Hwte _] & [Hwpe _] & _) HT Hbad.
  destruct (positions_ok (Transformer.wpe m) (size1 idx)) as [pos Ep]; [lia|].
  unfold Transformer.forward.
  destruct (Z.leb_spec (Z.of_nat (size1 idx))
                       (ModelArgs.max_seq_len (Transformer.config m))); [|lia].
  cbn [negb]. rewrite Ep. cbn [bind].
  rewrite (mapM_raises (mapM (Embedding.forward (Transformer.wte m))) (rows idx)
                       IndexError); [reflexivity| |].
  - intros row e Hrow. apply mapM_raise in Hrow as (a & _ & Ha).
    now apply embedding_raise in Ha.
  - eapply List.Exists_impl; [|exact Hbad]. intros row Hrow. cbn beta.
    exists IndexError. apply mapM_raises.
    + intros a e. apply embedding_raise.
    + eapply List.Exists_impl; [|exact Hrow]. intros id Hid. cbn beta in *.
      exists IndexError. apply embedding_out_of_range. rewrite Hwte. lia.
Qed.

Lemma forward_out_of_vocabulary_witness :
  Transformer.shaped Examples.tiny_model /\
  (Z.of_nat (size1 (mkLong 1 3 [[0; 7; 2]]%Z))
   <= ModelArgs.max_seq_len (Transformer.config Examples.tiny_model))%Z /\
  Transformer.forward Examples.tiny_model (mkLong 1 3 [[0; 7; 2]]%Z) None
  = Raise IndexError.
Proof.
  assert (HT : (Z.of_nat (size1 (mkLong 1 3 [[0; 7; 2]]%Z))
                <= ModelArgs.max_seq_len (Transformer.config Examples.tiny_model))%Z)
    by (cbn; lia).
  split; [exact tiny_model_shaped|]. split; [exact HT|].
  apply (forward_out_of_vocabulary Examples.tiny_model (mkLong 1 3 [[0; 7; 2]]%Z) None
           tiny_model_shaped HT).
  apply Exists_cons_hd. apply Exists_cons_tl. apply Exists_cons_hd. cbn. lia.
Defined.

(** *** The targets *)











(** *** An output head of zeros *)










(** *** From the constructor to the first call *)

Lemma init_config (config : ModelArgs.t) (w : Transformer.fresh) (m : Transformer.t) :
  Transformer.init config w = Ok m ->
  Transformer.config m = config /\
  Transformer.wte m = Transformer.f_wte w /\ Transformer.wpe m = Transformer.f_wpe w /\
  Transformer.ln_f m = Transformer.f_ln_f w /\
  Transformer.lm_head m = Transformer.f_lm_head w.
Proof.
  unfold Transformer.init.
  destruct (check_size (ModelArgs.vocab_size config)) as [[]|]; cbn [bind]; [|discriminate].
  destruct (check_size (ModelArgs.n_embd config)) as [[]|]; cbn [bind]; [|discriminate].
  destruct (check_size (ModelArgs.max_seq_len config)) as [[]|]; cbn [bind]; [|discriminate].
  destruct (mapM _ _) as [h|]; cbn [bind]; [|discriminate].
  intros [= <-]. cbn. repeat split.
Qed.




End ModelExtras.

Module ShapeExtras.
Import TensorLemmas AttentionProofs ForwardProofs.
Local Open Scope nat_scope.

Lemma linear_length (out inn : nat) (l : Linear.t) (x : list R) :
  Linear.shaped out inn l -> length (Linear.forward l x) = out.
Proof.
  intros (Hw & _ & Hb). unfold Linear.forward.
  destruct (Linear.bias l) as [b|].
  - unfold vadd. rewrite map2_length, length_map. lia.
  - now rewrite length_map.
Qed.

Lemma linear_rows (out inn : nat) (l : Linear.t) (x : list (list R)) :
  Linear.shaped out inn l ->
  Forall (fun r => length r = out) (map (Linear.forward l) x).
Proof.
  intros Hl. apply List.Forall_forall. intros r Hr.
  apply in_map_iff in Hr as (y & <- & _). exact (linear_length out inn l y Hl).
Qed.

Lemma layer_norm_length (n : nat) (l : LayerNorm.t) (x : list R) :
  LayerNorm.shaped n l -> length x = n -> length (LayerNorm.forward l x) = n.
Proof.
  intros [Hw Hb] Hx. unfold LayerNorm.forward, vadd, vmul.
  rewrite !map2_length, length_map. lia.
Qed.

Lemma layer_norm_rows (n : nat) (l : LayerNorm.t) (x : list (list R)) :
  LayerNorm.shaped n l -> Forall (fun r => length r = n) x ->
  Forall (fun r => length r = n) (map (LayerNorm.forward l) x).
Proof.
  intros Hl Hx. apply List.Forall_forall. intros r Hr.
  apply in_map_iff in Hr as (y & <- & Hy).
  rewrite List.Forall_forall in Hx. exact (layer_norm_length n l y Hl (Hx y Hy)).
Qed.

Lemma chunk_length (n i : nat) (v : list R) :
  i * n + n <= length v -> length (chunk n i v) = n.
Proof. intros H. unfold chunk. rewrite length_firstn, length_skipn. lia. Qed.


(** The head count times the head size is the width. *)
Lemma head_size_ok (config : ModelArgs.t) (a : CausalSelfAttention.t) :
  CausalSelfAttention.shaped config a ->
  CausalSelfAttention.channels a = Z.to_nat (ModelArgs.n_embd config) /\
  CausalSelfAttention.head_size a = Z.to_nat (CausalSelfAttention.head_dim a) /\
  CausalSelfAttention.heads a * CausalSelfAttention.head_size a
  = Z.to_nat (ModelArgs.n_embd config).
Proof.
  intros (_ & HE & HH & _ & HH0 & Hd0 & Hmul & _).
  unfold CausalSelfAttention.head_size, CausalSelfAttention.channels,
    CausalSelfAttention.heads.
  assert (Hdiv : Z.to_nat (CausalSelfAttention.n_embd a)
                 / Z.to_nat (CausalSelfAttention.n_heads a)
                 = Z.to_nat (CausalSelfAttention.head_dim a)).
  { rewrite <- Hmul, Z2Nat.inj_mul by lia. apply Nat.div_mul. lia. }
  rewrite Hdiv. split; [now rewrite HE|]. split; [reflexivity|].
  rewrite <- HE, <- Hmul, Z2Nat.inj_mul by lia. lia.
Qed.

Lemma split_head_rows (config : ModelArgs.t) (a : CausalSelfAttention.t)
      (i h : nat) (x : list (list R)) :
  CausalSelfAttention.shaped config a ->
  i < 3 -> h < CausalSelfAttention.heads a ->
  Forall (fun r => length r = CausalSelfAttention.head_size a)
         (CausalSelfAttention.split_head a i h x).
Proof.
  intros Ha Hi Hh. destruct (head_size_ok config a Ha) as (Hc & _ & Hmul).
  pose proof Ha as (_ & _ & _ & _ & _ & _ & _ & Hattn & _).
  unfold CausalSelfAttention.split_head. apply List.Forall_forall. intros r Hr.
  apply in_map_iff in Hr as (y & <- & Hy).
  apply in_map_iff in Hy as (z & <- & _).
  apply chunk_length. rewrite chunk_length.
  - rewrite Hc, <- Hmul.
    apply (Nat.le_trans _ (S h * CausalSelfAttention.head_size a)); [cbn; lia|].
    apply Nat.mul_le_mono_r. lia.
  - rewrite (linear_length _ _ _ z Hattn), Hc. nia.
Qed.

Lemma merge_heads_rows (T hs : nat) (ys : list (list (list R))) :
  Forall (fun yh => length yh = T /\ Forall (fun r => length r = hs) yh) ys ->
  Forall (fun r => length r = length ys * hs) (CausalSelfAttention.merge_heads T ys).
Proof.
  intros Hys. unfold CausalSelfAttention.merge_heads.
  apply List.Forall_forall. intros r Hr.
  apply in_map_iff in Hr as (t & <- & Ht). apply in_seq in Ht.
  rewrite (concat_length_uniform hs), length_map; [reflexivity|].
  apply List.Forall_forall. intros v Hv. apply in_map_iff in Hv as (yh & <- & Hyh).
  rewrite List.Forall_forall in Hys. destruct (Hys yh Hyh) as [HT Hrows].
  rewrite List.Forall_forall in Hrows. apply Hrows. apply nth_In. lia.
Qed.

Lemma matmul_dims (a b : list (list R)) (n : nat) :
  length (matmul a b n) = length a /\ Forall (fun r => length r = n) (matmul a b n).
Proof.
  unfold matmul. split; [apply length_map|].
  apply List.Forall_forall. intros r Hr. apply in_map_iff in Hr as (row & <- & _).
  now rewrite length_map, length_seq.
Qed.

(** X13: in a well-formed attention layer on [T <= max_seq_len] rows of
    width [E] the shapes of all intermediate tensors line up: the joint
    projection has width [3E], each of its three parts splits into [H]
    heads of width [E/H] with [H * (E/H) = E], each head has a [T x T]
    matrix of weights and an output of width [E/H], the outputs side by
    side have the width [E] that the output projection expects, and the
    layer returns [T] rows of width [E]. *)
Theorem attention_shapes
        (config : ModelArgs.t) (a : CausalSelfAttention.t) (x : list (list R)) :
  CausalSelfAttention.shaped config a ->
  length x <= Z.to_nat (ModelArgs.max_seq_len config) ->
  Forall (fun r => length r = Z.to_nat (ModelArgs.n_embd config)) x ->
  let E := Z.to_nat (ModelArgs.n_embd config) in
  let H := CausalSelfAttention.heads a in
  let hs := CausalSelfAttention.head_size a in
  let heads_out :=
    map (fun h => matmul (CausalSelfAttention.att a h x)
                         (CausalSelfAttention.split_head a 2 h x) hs) (seq 0 H) in
  H * hs = E /\
  Forall (fun w => Forall (fun r => length w = length r) x)
         (Linear.weight (CausalSelfAttention.c_attn a)) /\
  Forall (fun r => length r = 3 * E)
         (map (Linear.forward (CausalSelfAttention.c_attn a)) x) /\
  (forall i h, i < 3 -> h < H ->
     length (CausalSelfAttention.split_head a i h x) = length x /\
     Forall (fun r => length r = hs) (CausalSelfAttention.split_head a i h x)) /\
  (forall h,
     length (CausalSelfAttention.att a h x) = length x /\
     Forall (fun r => length r = length x) (CausalSelfAttention.att a h x)) /\
  Forall (fun yh => length yh = length x /\ Forall (fun r => length r = hs) yh)
         heads_out /\
  Forall (fun r => length r = E) (CausalSelfAttention.merge_heads (length x) heads_out) /\
  Forall (fun w => length w = E) (Linear.weight (CausalSelfAttention.c_proj a)) /\
  length (CausalSelfAttention.forward a x) = length x /\
  Forall (fun r => length r = E) (CausalSelfAttention.forward a x).
Proof.
  intros Ha HL Hx. cbv zeta.
  destruct (head_size_ok config a Ha) as (Hc & Hhs & Hmul).
  pose proof Ha as (HLa & _ & _ & _ & _ & _ & _ & Hattn & _ & Hproj & _ & Hmask).
  rewrite <- HLa in Hmask, HL.
  assert (Hatt : forall h,
             length (CausalSelfAttention.att a h x) = length x /\
             Forall (fun r => length r = length x) (CausalSelfAttention.att a h x)).
  { intros h. exact (AttentionExtras.att_dims a h x Hmask HL). }
  assert (Hheads :
            Forall (fun yh => length yh = length x /\
                              Forall (fun r => length r = CausalSelfAttention.head_size a) yh)
                   (map (fun h => matmul (CausalSelfAttention.att a h x)
                                         (CausalSelfAttention.split_head a 2 h x)
                                         (CausalSelfAttention.head_size a))
                        (seq 0 (CausalSelfAttention.heads a)))).
  { apply List.Forall_forall. intros yh Hyh. apply in_map_iff in Hyh as (h & <- & _).
    destruct (matmul_dims (CausalSelfAttention.att a h x)
                (CausalSelfAttention.split_head a 2 h x)
                (CausalSelfAttention.head_size a)) as [H1 H2].
    split; [|exact H2]. rewrite H1. apply Hatt. }
  split; [exact Hmul|]. split.
  { destruct Hattn as (_ & Hw & _). eapply List.Forall_impl; [|exact Hw].
    intros w Hw'. cbn beta in *. eapply List.Forall_impl; [|exact Hx].
    intros r Hr. cbn beta in *. congruence. }
  split; [exact (linear_rows _ _ _ x Hattn)|]. split.
  { intros i h Hi Hh. split; [apply split_head_length|].
    exact (split_head_rows config a i h x Ha Hi Hh). }
  split; [exact Hatt|]. split; [exact Hheads|]. split.
  { pose proof (merge_heads_rows (length x) _ _ Hheads) as Hm.
    rewrite length_map, length_seq, Hmul in Hm. exact Hm. }
  split; [apply Hproj|]. split; [apply attention_length|].
  unfold CausalSelfAttention.forward. cbv zeta. exact (linear_rows _ _ _ _ Hproj).
Qed.

Lemma tiny_attn_shaped : CausalSelfAttention.shaped Examples.tiny Examples.tiny_attn.
Proof.
  unfold CausalSelfAttention.shaped, Linear.shaped.
  cbn. repeat split; try lia; try reflexivity; try discriminate; repeat constructor.
Defined.

Lemma attention_shapes_witness :
  CausalSelfAttention.shaped Examples.tiny Examples.tiny_attn /\
  length Examples.two_positions <= Z.to_nat (ModelArgs.max_seq_len Examples.tiny) /\
  Forall (fun r => length r = Z.to_nat (ModelArgs.n_embd Examples.tiny))
         Examples.two_positions /\
  CausalSelfAttention.heads Examples.tiny_attn
  * CausalSelfAttention.head_size Examples.tiny_attn
  = Z.to_nat (ModelArgs.n_embd Examples.tiny).
Proof.
  assert (HL : length Examples.two_positions
               <= Z.to_nat (ModelArgs.max_seq_len Examples.tiny)) by (cbn; lia).
  assert (Hx : Forall (fun r => length r = Z.to_nat (ModelArgs.n_embd Examples.tiny))
                      Examples.two_positions).
  { repeat constructor. }
  split; [exact tiny_attn_shaped|]. split; [exact HL|]. split; [exact Hx|].
  exact (proj1 (attention_shapes Examples.tiny Examples.tiny_attn Examples.two_positions
                  tiny_attn_shaped HL Hx)).
Defined.





End ShapeExtras.

Module TrainingExtras.
Import Batcher BatcherProofs TensorLemmas ForwardProofs.
Local Open Scope R_scope.







End TrainingExtras.

Module ImporterExtras.
Import Importer ImporterProofs.
Local Open Scope string_scope.

(** *** Names and shapes are invariants of the copy *)

Lemma converted_shape (k : string) (v dst : tensor) :
  fits k v dst -> shape (converted k v) = shape dst.
Proof.
  unfold fits, converted. destruct (is_transposed k); [|trivial].
  intros [Hs Hd]. destruct (shape v) as [|r [|c [|? ?]]] eqn:Es; cbn in *;
    rewrite ?Es; try exact Hs. lia.
Qed.

Lemma copy_one_shapes (sd sd' : gmap string tensor) (kv : string * tensor) :
  copy_one sd kv = Ok sd' -> shape <$> sd' = shape <$> sd.
Proof.
  destruct kv as [k v]. intros E.
  apply copy_one_inv in E as (dst & Hdst & Hf & ->).
  rewrite fmap_insert, (converted_shape k v dst Hf).
  apply insert_id. now rewrite lookup_fmap, Hdst.
Qed.

Lemma copy_loop_shapes (items : list (string * tensor)) (sd sd' : gmap string tensor)
      (err : option exn) :
  copy_loop items sd = (sd', err) -> shape <$> sd' = shape <$> sd.
Proof.
  revert sd. induction items as [|kv rest IH]; intros sd; cbn [copy_loop].
  - now intros [= <- _].
  - destruct (copy_one sd kv) as [sd1|e] eqn:E1.
    + intros E. rewrite (IH _ E). exact (copy_one_shapes _ _ _ E1).
    + now intros [= <- _].
Qed.

Lemma copy_loop_elsewhere (items : list (string * tensor)) (sd sd' : gmap string tensor)
      (err : option exn) (k : string) :
  copy_loop items sd = (sd', err) -> ~ In k (map fst items) -> sd' !! k = sd !! k.
Proof.
  revert sd. induction items as [|[k' v'] rest IH]; intros sd; cbn [copy_loop].
  - now intros [= <- _].
  - destruct (copy_one sd (k', v')) as [sd1|e] eqn:E1.
    + intros E Hk. cbn [map fst In] in Hk. rewrite (IH _ E) by tauto.
      apply copy_one_inv in E1 as (dst & _ & _ & ->).
      apply lookup_insert_ne. tauto.
    + now intros [= <- _].
Qed.

Lemma items_hf_not_masks (sd_hf : list (string * tensor)) (k : string) :
  In k (map fst (sd_items_hf sd_hf)) ->
  endswith k ".attn.bias" = false /\ endswith k ".attn.masked_bias" = false.
Proof.
  intros H. apply in_map_iff in H as ([k' v] & <- & H). unfold sd_items_hf in H.
  apply filter_In in H as [H H1]. apply filter_In in H as [_ H2].
  cbn [fst] in *. split; now apply negb_true_iff.
Qed.

(** X16: whatever the checkpoint holds and however the import ends, the
    model that [from_pretrained] builds keeps the names and the shapes of
    the freshly initialised model; its causal masks, and every tensor
    whose name is not copied, keep their values. *)
Theorem import_keeps_names_and_shapes
        (new_model : ModelArgs.t -> gmap string tensor)
        (hf_pretrained : string -> list (string * tensor))
        (model_type : string) (config : ModelArgs.t) (h : heap) :
  config_args model_type = Some config ->
  exists sd',
    snd (from_pretrained new_model hf_pretrained model_type h) !! fresh (dom h)
    = Some sd' /\
    dom sd' = dom (new_model config) /\
    (forall k, shape <$> (sd' !! k) = shape <$> (new_model config !! k)) /\
    (forall k, endswith k ".attn.bias" = true -> sd' !! k = new_model config !! k) /\
    (forall k, ~ In k (map fst (sd_items_hf (hf_pretrained model_type))) ->
               sd' !! k = new_model config !! k).
Proof.
  intros Hconfig. unfold from_pretrained. rewrite Hconfig.
  set (sd := new_model config). set (items := sd_items_hf (hf_pretrained model_type)).
  assert (Hgoal : forall sd' err,
             copy_loop items sd = (sd', err) ->
             dom sd' = dom sd /\
             (forall k, shape <$> (sd' !! k) = shape <$> (sd !! k)) /\
             (forall k, endswith k ".attn.bias" = true -> sd' !! k = sd !! k) /\
             (forall k, ~ In k (map fst items) -> sd' !! k = sd !! k)).
  { intros sd' err E. pose proof (copy_loop_shapes _ _ _ _ E) as Hsh.
    assert (Hout : forall k, ~ In k (map fst items) -> sd' !! k = sd !! k).
    { intros k. exact (copy_loop_elsewhere _ _ _ _ k E). }
    split; [|split; [|split]].
    - rewrite <- (dom_fmap_L shape sd'), Hsh. apply dom_fmap_L.
    - intros k. now rewrite <- !lookup_fmap, Hsh.
    - intros k Hk. apply Hout. intros Hin.
      apply items_hf_not_masks in Hin as [Hin _]. congruence.
    - exact Hout. }
  destruct (negb _).
  - exists sd. cbn [snd]. rewrite lookup_insert_eq. split; [reflexivity|].
    split; [reflexivity|]. split; [reflexivity|]. split; reflexivity.
  - destruct (copy_loop items sd) as [sd' err] eqn:E.
    exists sd'. split; [|exact (Hgoal sd' err eq_refl)].
    destruct err; cbn [snd]; apply lookup_insert_eq.
Qed.

Lemma import_keeps_names_and_shapes_witness :
  config_args "gpt2" = Some Examples.gpt2 /\
  exists sd',
    snd (from_pretrained Examples.small_model Examples.bad_checkpoint "gpt2"
                         Examples.callers_heap)
    !! fresh (dom Examples.callers_heap) = Some sd' /\
    dom sd' = dom (Examples.small_model Examples.gpt2).
Proof.
  assert (Hc : config_args "gpt2" = Some Examples.gpt2) by reflexivity.
  split; [exact Hc|].
  destruct (import_keeps_names_and_shapes Examples.small_model Examples.bad_checkpoint
              "gpt2" Examples.gpt2 Examples.callers_heap Hc) as (sd' & E & Hdom & _).
  exists sd'. split; [exact E|exact Hdom].
Defined.

(** *** Transposing twice *)

Lemma map_nth_window (p c : nat) (d : list R) :
  (p + c <= length d)%nat ->
  map (fun i => nth (p + i) d 0%R) (seq 0 c) = firstn c (skipn p d).
Proof.
  intros H. apply (nth_ext _ _ 0%R 0%R).
  - rewrite length_map, length_seq, length_firstn, length_skipn. lia.
  - intros n Hn. rewrite length_map, length_seq in Hn.
    rewrite (nth_indep _ 0%R ((fun i => nth (p + i) d 0%R) 0%nat))
      by (now rewrite length_map, length_seq).
    rewrite (map_nth (fun i => nth (p + i) d 0%R)), seq_nth by assumption.
    rewrite nth_firstn. destruct (Nat.ltb_spec n c); [|lia].
    now rewrite nth_skipn.
Qed.

Lemma transpose_data_length (r c : nat) (d : list R) :
  length (transpose_data r c d) = (c * r)%nat.
Proof.
  unfold transpose_data. rewrite (ForwardProofs.concat_length_uniform r).
  - now rewrite length_map, length_seq.
  - apply List.Forall_forall. intros l Hl. apply in_map_iff in Hl as (j & <- & _).
    now rewrite length_map, length_seq.
Qed.

Lemma transpose_twice (r c : nat) (d : list R) :
  length d = (r * c)%nat -> transpose_data c r (transpose_data r c d) = d.
Proof.
  intros Hd. unfold transpose_data at 1.
  transitivity (concat (Batcher.reshape r c d));
    [|exact (BatcherProofs.concat_reshape r c d Hd)].
  unfold Batcher.reshape. f_equal. apply map_ext_in. intros j Hj. apply in_seq in Hj.
  rewrite <- map_nth_window by nia.
  apply map_ext_in. intros i Hi. apply in_seq in Hi.
  pose proof (transpose_entry r c d i j) as H. unfold at2 in H. cbn [shape data nth] in H.
  rewrite H by lia. reflexivity.
Qed.

(** X17: transposing twice gives the tensor back: for a tensor of at
    most two dimensions whose number of entries is the product of its
    sizes, [x.t().t()] is [x]; so a checkpoint exported from the imported
    weights with the same rule is the checkpoint that was imported. *)
Theorem transpose_round_trip (v : tensor) :
  (length (shape v) <= 2)%nat ->
  length (data v) = fold_right Nat.mul 1%nat (shape v) ->
  (let* v1 := t v in t v1) = Ok v /\
  forall k, converted k (converted k v) = v.
Proof.
  intros Hs Hd. destruct v as [sh d]. cbn [shape data] in *.
  assert (Ht : (let* v1 := t (mkT sh d) in t v1) = Ok (mkT sh d)).
  { destruct sh as [|r [|c [|? ?]]]; cbn in Hs; try lia; try reflexivity.
    unfold t. cbn [shape data bind]. do 2 f_equal.
    apply transpose_twice. cbn in Hd. lia. }
  split; [exact Ht|].
  intros k. unfold converted. destruct (is_transposed k); [|reflexivity].
  cbn [shape data].
  destruct sh as [|r [|c [|? ?]]]; cbn in Hs; try lia; try reflexivity.
  cbn [shape data]. f_equal. apply transpose_twice. cbn in Hd. lia.
Qed.

Lemma transpose_round_trip_witness :
  (length (shape Samples.two_by_three) <= 2)%nat /\
  length (data Samples.two_by_three)
  = fold_right Nat.mul 1%nat (shape Samples.two_by_three) /\
  (let* v1 := t Samples.two_by_three in t v1) = Ok Samples.two_by_three.
Proof.
  assert (Hs : (length (shape Samples.two_by_three) <= 2)%nat) by (cbn; lia).
  assert (Hd : length (data Samples.two_by_three)
               = fold_right Nat.mul 1%nat (shape Samples.two_by_three)) by reflexivity.
  split; [exact Hs|]. split; [exact Hd|].
  exact (proj1 (transpose_round_trip Samples.two_by_three Hs Hd)).
Defined.

(** *** Which exception *)

Lemma copy_loop_app (pre rest : list (string * tensor)) (sd sd1 : gmap string tensor) :
  copy_loop pre sd = (sd1, None) -> copy_loop (pre ++ rest)%list sd = copy_loop rest sd1.
Proof.
  revert sd. induction pre as [|kv pre IH]; intros sd; cbn [copy_loop app].
  - now intros [= <-].
  - destruct (copy_one sd kv) as [sd'|e]; [apply IH|discriminate].
Qed.

(** X18: the item of the checkpoint at which the copy stops decides the
    exception: a name that the model does not have is a [KeyError], a
    shape that does not fit (reversed, for the four projection weights)
    an [AssertionError], and a projection weight of more than two
    dimensions whose reversed shape fits a [RuntimeError] of [t()]. *)
Theorem import_exception_kinds
        (new_model : ModelArgs.t -> gmap string tensor)
        (hf_pretrained : string -> list (string * tensor))
        (model_type : string) (config : ModelArgs.t) (h : heap)
        (pre post : list (string * tensor)) (k : string) (v : tensor) :
  config_args model_type = Some config ->
  List.NoDup (map fst (hf_pretrained model_type)) ->
  let sd := new_model config in
  let items := sd_items_hf (hf_pretrained model_type) in
  length items = length (sd_keys sd) ->
  items = (pre ++ (k, v) :: post)%list ->
  (forall k' v', In (k', v') pre -> exists dst, sd !! k' = Some dst /\ fits k' v' dst) ->
  (sd !! k = None ->
   fst (from_pretrained new_model hf_pretrained model_type h) = Raise KeyError) /\
  (forall dst, sd !! k = Some dst ->
     (if is_transposed k then rev (shape v) else shape v) <> shape dst ->
     fst (from_pretrained new_model hf_pretrained model_type h) = Raise AssertionError) /\
  (forall dst, sd !! k = Some dst -> is_transposed k = true ->
     rev (shape v) = shape dst -> (2 < length (shape v))%nat ->
     fst (from_pretrained new_model hf_pretrained model_type h) = Raise RuntimeError).
Proof.
  intros Hconfig Hdict sd items Hcount Hitems Hfit.
  pose proof (NoDup_items_hf _ Hdict) as Hnd. fold items in Hnd.
  rewrite Hitems, map_app in Hnd. cbn [map fst] in Hnd.
  assert (Hk : ~ In k (map fst pre)).
  { apply List.NoDup_remove_2 in Hnd. intros Hin. apply Hnd, in_or_app. now left. }
  assert (Hpre : List.NoDup (map fst pre)).
  { apply List.NoDup_remove_1 in Hnd. now apply List.NoDup_app_remove_r in Hnd. }
  destruct (copy_loop_ok pre sd Hpre Hfit) as (sd1 & E1 & _ & Hout).
  assert (Hloop : copy_loop items sd
                  = match copy_one sd1 (k, v) with
                    | Ok sd' => copy_loop post sd'
                    | Raise e => (sd1, Some e)
                    end).
  { rewrite Hitems, (copy_loop_app pre _ sd sd1 E1). reflexivity. }
  assert (Hfrom : forall e, copy_one sd1 (k, v) = Raise e ->
            fst (from_pretrained new_model hf_pretrained model_type h) = Raise e).
  { intros e Ee. unfold from_pretrained. rewrite Hconfig. fold sd items.
    rewrite Hcount, Nat.eqb_refl. cbn [negb]. rewrite Hloop, Ee. reflexivity. }
  split; [|split].
  - intros Hnone. apply Hfrom. unfold copy_one. rewrite (Hout k Hk), Hnone.
    now destruct (is_transposed k).
  - intros dst Hdst Hne. apply Hfrom. unfold copy_one. rewrite (Hout k Hk), Hdst.
    destruct (is_transposed k); destruct (decide _); [contradiction|reflexivity|
                                                      contradiction|reflexivity].
  - intros dst Hdst Htr Hrev Hlen. apply Hfrom. unfold copy_one.
    rewrite (Hout k Hk), Hdst, Htr. destruct (decide _); [|contradiction].
    now rewrite (t_large v Hlen).
Qed.

Lemma import_exception_kinds_witness :
  config_args "gpt2" = Some Examples.gpt2 /\
  List.NoDup (map fst (Examples.bad_checkpoint "gpt2")) /\
  length (sd_items_hf (Examples.bad_checkpoint "gpt2"))
  = length (sd_keys (Examples.small_model Examples.gpt2)) /\
  fst (from_pretrained Examples.small_model Examples.bad_checkpoint "gpt2"
                       Examples.callers_heap) = Raise AssertionError.
Proof.
  assert (Hc : config_args "gpt2" = Some Examples.gpt2) by reflexivity.
  assert (Hcount : length (sd_items_hf (Examples.bad_checkpoint "gpt2"))
                   = length (sd_keys (Examples.small_model Examples.gpt2)))
    by (vm_compute; reflexivity).
  assert (Hitems : sd_items_hf (Examples.bad_checkpoint "gpt2")
                   = ([("transformer.h.0.attn.c_attn.weight",
                        mkT [2; 3]%nat [1; 2; 3; 4; 5; 6]%R)]
                      ++ ("lm_head.weight", mkT [3; 2]%nat [7; 8; 9; 10; 11; 12]%R)
                         :: [])%list)
    by reflexivity.
  assert (Hfit : forall k' v',
             In (k', v') [("transformer.h.0.attn.c_attn.weight",
                           mkT [2; 3]%nat [1; 2; 3; 4; 5; 6]%R)] ->
             exists dst, Examples.small_model Examples.gpt2 !! k' = Some dst /\
                         fits k' v' dst).
  { intros k' v' [[= <- <-]|[]]. eexists.
    split; [vm_compute; reflexivity|]. cbn. auto. }
  assert (Hdst : Examples.small_model Examples.gpt2 !! "lm_head.weight"
                 = Some (mkT [2; 3]%nat [0; 0; 0; 0; 0; 0]%R))
    by (vm_compute; reflexivity).
  split; [exact Hc|]. split; [exact Witnesses.bad_checkpoint_dict|].
  split; [exact Hcount|].
  apply (proj1 (proj2 (import_exception_kinds
                  Examples.small_model Examples.bad_checkpoint "gpt2" Examples.gpt2
                  Examples.callers_heap _ _ _ _
                  Hc Witnesses.bad_checkpoint_dict Hcount Hitems Hfit)) _ Hdst).
  cbn. discriminate.
Defined.

(** *** The presets *)

(** X19: [from_pretrained] knows the four GPT-2 sizes and no other name;
    for another name it raises before anything is built, leaving the heap
    as it was; every preset has a context of 1024, a vocabulary of 50257
    and a head dimension of 64, passes the divisibility check, and builds
    a well-formed model with its number of layers. *)
Theorem presets_build (model_type : string) :
  (config_args model_type = None <->
   ~ In model_type ["gpt2"; "gpt2-medium"; "gpt2-large"; "gpt2-xl"]) /\
  (config_args model_type = None ->
   forall new_model hf_pretrained h,
     from_pretrained new_model hf_pretrained model_type h = (Raise AssertionError, h)) /\
  (forall config,
     config_args model_type = Some config ->
     ModelArgs.max_seq_len config = 1024%Z /\
     ModelArgs.vocab_size config = 50257%Z /\
     CausalSelfAttention.divisibility_check config = Ok 64%Z /\
     In (ModelArgs.n_layers config) [12; 24; 36; 48]%Z /\
     forall w,
       Transformer.fresh_shaped config w ->
       exists m, Transformer.init config w = Ok m /\ Transformer.shaped m /\
                 length (Transformer.h m) = Z.to_nat (ModelArgs.n_layers config)).
Proof.
  assert (Hbuild : forall config,
             (0 < ModelArgs.n_heads config)%Z -> (0 < ModelArgs.n_embd config)%Z ->
             (ModelArgs.n_heads config | ModelArgs.n_embd config)%Z ->
             (0 <= ModelArgs.max_seq_len config)%Z ->
             (0 <= ModelArgs.vocab_size config)%Z ->
             forall w, Transformer.fresh_shaped config w ->
             exists m, Transformer.init config w = Ok m /\ Transformer.shaped m /\
                       length (Transformer.h m) = Z.to_nat (ModelArgs.n_layers config)).
  { intros config HH HE Hd HL HV w Hw.
    destruct (ConstructionProofs.init_shaped config HH HE Hd HL HV w Hw) as (m & Em & Hm).
    exists m. split; [exact Em|]. split; [exact Hm|].
    destruct (ModelExtras.init_config config w m Em) as (Hc & _).
    pose proof Hm as (_ & _ & _ & _ & Hh & _). now rewrite Hc in Hh. }
  unfold from_pretrained, config_args.
  destruct (String.eqb_spec model_type "gpt2") as [->|H1];
    [|destruct (String.eqb_spec model_type "gpt2-medium") as [->|H2];
      [|destruct (String.eqb_spec model_type "gpt2-large") as [->|H3];
        [|destruct (String.eqb_spec model_type "gpt2-xl") as [->|H4]]]].
  5:{ split; [|split].
      - split; [|reflexivity]. intros _ Hin. cbn in Hin. intuition congruence.
      - reflexivity.
      - discriminate. }
  all: split; [split; [discriminate|intros Hn; exfalso; apply Hn; cbn; tauto]|].
  all: split; [discriminate|].
  all: intros config [= <-]; cbn [ModelArgs.max_seq_len ModelArgs.vocab_size
                                  ModelArgs.n_layers].
  all: split; [reflexivity|]; split; [reflexivity|]; split; [reflexivity|].
  all: split; [cbn; tauto|].
  all: apply Hbuild; cbn; try lia.
  - exists 64%Z. reflexivity.
  - exists 64%Z. reflexivity.
  - exists 64%Z. reflexivity.
  - exists 64%Z. reflexivity.
Qed.

Lemma presets_build_witness :
  config_args "gpt2-xl" = Some (ModelArgs.mk 1024 50257 48 25 1600 256 None) /\
  CausalSelfAttention.divisibility_check (ModelArgs.mk 1024 50257 48 25 1600 256 None)
  = Ok 64%Z.
Proof.
  assert (Hc : config_args "gpt2-xl" = Some (ModelArgs.mk 1024 50257 48 25 1600 256 None))
    by reflexivity.
  split; [exact Hc|].
  exact (proj1 (proj2 (proj2 (proj2 (proj2 (presets_build "gpt2-xl")) _ Hc)))).
Defined.

End ImporterExtras.

Module ActivationExtras.
Local Open Scope R_scope.




End ActivationExtras.
